(** * Category intake bot: a shallow embedding of [bot.py]

    The bot keeps one module-level dictionary [user_state], one SQLite
    table [entries], and talks to the chat transport through a handful
    of calls ([reply_text], [edit_message_text], [send_message],
    [answer]).  Each handler is a coroutine that the dispatcher runs to
    completion for one update, so a handler is modelled as a function
    from the world before the update to an outcome (returned or raised)
    and the world after it.  The transport calls are recorded, in
    order, in an outbox, each with the chat or user it goes to; their
    delivery is taken to succeed. *)

From stdpp Require Import base strings list gmap.
From Stdlib Require Import ZArith NArith Lia DecimalString.

Local Open Scope Z_scope.

(** ** Python [str] values

    A [str] is a sequence of Unicode code points.  Literals of the
    source that are plain ASCII are written with [lit]; the few
    non-ASCII characters of the source are given by code point. *)

Definition str : Type := list N.

Definition lit (s : string) : str :=
  map Ascii.N_of_ascii (String.list_ascii_of_string s).

Global Arguments lit : simpl never.

Definition LF : N := 10%N.

(** [str.isspace] for one code point: the code points Python treats as
    white space when [strip] is called without an argument. *)
Definition isspace (c : N) : bool :=
  ((9 <=? c) && (c <=? 13) || (28 <=? c) && (c <=? 32) ||
   (c =? 133) || (c =? 160) || (c =? 5760) ||
   (8192 <=? c) && (c <=? 8202) || (c =? 8232) || (c =? 8233) ||
   (c =? 8239) || (c =? 8287) || (c =? 12288))%N.

Fixpoint lstrip (s : str) : str :=
  match s with
  | [] => []
  | c :: s' => if isspace c then lstrip s' else s
  end.

Definition rstrip (s : str) : str := rev (lstrip (rev s)).

(** [s.strip()] *)
Definition strip (s : str) : str := rstrip (lstrip s).

Definition upper1 (c : N) : N :=
  (if (97 <=? c) && (c <=? 122) then c - 32 else c)%N.

Definition lower1 (c : N) : N :=
  (if (65 <=? c) && (c <=? 90) then c + 32 else c)%N.

(** [s.capitalize()] on a string of ASCII characters: the first
    character upper-cased, the rest lower-cased. *)
Definition capitalize_ascii (s : str) : str :=
  match s with
  | [] => []
  | c :: s' => upper1 c :: map lower1 s'
  end.

Definition is_ascii (s : str) : bool := forallb (λ c, c <? 128)%N s.

(** Beyond ASCII [str.capitalize] follows the Unicode case tables of
    the interpreter (title case, full lower case, final sigma), which
    are no part of the program: on a string with a code point above
    127 the method is taken as given. *)
Class Unicode := { capitalize_unicode : str → str }.

(** [s.capitalize()] *)
Definition capitalize `{!Unicode} (s : str) : str :=
  if is_ascii s then capitalize_ascii s else capitalize_unicode s.

(** [sep.join(parts)] *)
Fixpoint join (sep : str) (parts : list str) : str :=
  match parts with
  | [] => []
  | [p] => p
  | p :: ps => p ++ sep ++ join sep ps
  end.

(** [str(n)] for a length. *)
Definition str_of_nat (n : nat) : str :=
  lit (NilZero.string_of_uint (Nat.to_uint n)).

(** [xs[-5:]] *)
Definition last5 {A} (xs : list A) : list A :=
  drop (length xs - 5)%nat xs.

(** [needle in haystack] on strings. *)
Fixpoint starts_with (p s : str) : bool :=
  match p, s with
  | [], _ => true
  | _ :: _, [] => false
  | a :: p', b :: s' => (a =? b)%N && starts_with p' s'
  end.

Fixpoint contains (s needle : str) : bool :=
  starts_with needle s ||
  match s with
  | [] => false
  | _ :: s' => contains s' needle
  end.

(** ** Data of the program *)

(** A row of the [entries] table. *)
Record Row := mkRow {
  row_id : Z;
  row_user_id : Z;
  row_username : str;
  row_category : str;
  row_text : str
}.

(** What the handlers read of the sender of an update: the id and the
    first name of [from_user], and the id of the chat the message is
    in (for a callback query, the message that carries the button).
    In a private chat the chat id is the user's id; in a group it is
    the group's. *)
Record Sender := mkSender {
  user_id : Z;
  first_name : str;
  chat_id : Z
}.

(** An inline keyboard button: label and [callback_data]. *)
Record InlineKeyboardButton := mkButton {
  label : str;
  callback_data : str
}.

(** Calls made on the chat transport.  [ReplyText], [ReplyKeyboard]
    and [EditMessageText] go to the chat the update came from,
    [Answer] to the user who pressed the button; [SendMessage] names
    its chat explicitly. *)
Inductive Sent :=
| ReplyText (to : Z) (body : str) (parse_mode : option str)
| ReplyKeyboard (to : Z) (body : str) (keyboard : list (list InlineKeyboardButton))
| Answer (to : Z)
| EditMessageText (to : Z) (body : str) (parse_mode : option str)
| SendMessage (chat_id : Z) (body : str) (parse_mode : option str).

(** The world a handler runs in: the [user_state] dictionary, the rows
    of the [entries] table in insertion order, whether the database
    file can be opened and written, and the transport calls made so
    far. *)
Record World := mkWorld {
  user_state : gmap Z str;
  entries : list Row;
  db_available : bool;
  outbox : list Sent
}.

Inductive exn :=
| KeyError (key : str)
| OperationalError.

Inductive outcome (A : Type) :=
| Returned (a : A)
| Raised (e : exn).
Arguments Returned {A} a.
Arguments Raised {A} e.

(** ** Handlers as state transformers that may raise *)

Definition M (A : Type) : Type := World → outcome A * World.

Definition ret {A} (a : A) : M A := λ w, (Returned a, w).

Definition raise {A} (e : exn) : M A := λ w, (Raised e, w).

Definition bind {A B} (c : M A) (k : A → M B) : M B :=
  λ w, match c w with
       | (Returned a, w') => k a w'
       | (Raised e, w') => (Raised e, w')
       end.

Notation "x <- c ;; k" := (bind c (λ x, k))
  (at level 100, c at next level, right associativity).
Notation "c ;; k" := (bind c (λ _, k))
  (at level 100, right associativity).

Definition gets {A} (f : World → A) : M A := λ w, (Returned (f w), w).

Definition send (s : Sent) : M unit :=
  λ w, (Returned tt,
        mkWorld (user_state w) (entries w) (db_available w) (outbox w ++ [s])).

Definition set_user_state (u : Z) (category : str) : M unit :=
  λ w, (Returned tt,
        mkWorld (<[u := category]> (user_state w)) (entries w)
                (db_available w) (outbox w)).

(** [aiosqlite.connect(DB_NAME)]: raises when the database cannot be
    opened. *)
Definition connect : M unit :=
  λ w, if db_available w then (Returned tt, w)
       else (Raised OperationalError, w).

(** The identifier SQLite assigns to the next row. *)
Definition next_id (rows : list Row) : Z :=
  1 + foldr (λ r acc, Z.max (row_id r) acc) 0 rows.

(** [INSERT INTO entries (user_id, username, category, text)] followed
    by [commit]. *)
Definition insert_row (uid : Z) (username category text : str) : M unit :=
  λ w, (Returned tt,
        mkWorld (user_state w)
                (entries w ++ [mkRow (next_id (entries w)) uid
                                     username category text])
                (db_available w) (outbox w)).

Definition add_entry (uid : Z) (username category text : str) : M unit :=
  connect ;;
  insert_row uid username category text.

(** [SELECT category, username, text FROM entries] *)
Definition get_entries : M (list (str * str * str)) :=
  connect ;;
  rows <- gets entries ;;
  ret (map (λ r, (row_category r, row_username r, row_text r)) rows).

(** [SELECT username, text FROM entries WHERE category = ?] *)
Definition get_category_entries (category : str) : M (list (str * str)) :=
  connect ;;
  rows <- gets entries ;;
  ret (map (λ r, (row_username r, row_text r))
           (filter (λ r, row_category r = category) rows)).

Definition Markdown : option str := Some (lit "Markdown").

Definition keyboard : list (list InlineKeyboardButton) :=
  [ [mkButton ([127822%N] ++ lit " Fruits") (lit "fruits")];
    [mkButton ([129365%N] ++ lit " Vegetables") (lit "vegetables")];
    [mkButton ([129380%N] ++ lit " Drinks") (lit "drinks")];
    [mkButton ([128230%N] ++ lit " Others") (lit "others")] ].

Section Interpreter.

Context {interpreter : Unicode}.

Definition start (user : Sender) : M unit :=
  send (ReplyKeyboard (chat_id user) (lit "Please choose a category:") keyboard).

Definition choose_category (from_user : Sender) (data : str) : M unit :=
  send (Answer (user_id from_user)) ;;
  let category := data in
  set_user_state (user_id from_user) category ;;
  send (EditMessageText (chat_id from_user)
          (lit "You chose *" ++ capitalize category ++ lit "*." ++ [LF] ++
           lit "Now send me your entry.")
          Markdown).

(** The text of the notification sent to the administrator. *)
Definition admin_note (category text name : str) : str :=
  [128236%N] ++ lit " *New entry in " ++ capitalize category ++ lit "*" ++
  [LF; LF] ++ text ++ [LF; LF] ++ lit "From: " ++ name.

Definition added_note (category : str) : str :=
  [9989%N] ++ lit " Added to *" ++ capitalize category ++ lit "*!".

Definition choose_first : str :=
  lit "Please choose a category first using /start.".

Definition not_authorized : str :=
  [128683%N] ++ lit " You are not authorized to use this command.".

Definition overview_header : str :=
  [128202%N] ++ lit " *Category Entries Overview:*" ++ [LF; LF].

(** The dictionary literal [cats] of [view_entries]; a Python dict
    keeps its keys in insertion order. *)
Definition cats0 : list (str * list str) :=
  [ (lit "fruits", []); (lit "vegetables", []);
    (lit "drinks", []); (lit "others", []) ].

(** [cats[k].append(v)]; [None] stands for the [KeyError] of the
    subscript. *)
Fixpoint dict_append (k v : str) (cats : list (str * list str))
  : option (list (str * list str)) :=
  match cats with
  | [] => None
  | (k', vs) :: rest =>
      if decide (k = k') then Some ((k', vs ++ [v]) :: rest)
      else cons (k', vs) <$> dict_append k v rest
  end.

(** The first loop of [view_entries]. *)
Fixpoint group (rows : list (str * str * str)) (cats : list (str * list str))
  : outcome (list (str * list str)) :=
  match rows with
  | [] => Returned cats
  | (category, username, text) :: rest =>
      match dict_append category (username ++ lit ": " ++ text) cats with
      | Some cats' => group rest cats'
      | None => Raised (KeyError category)
      end
  end.

Definition lift {A} (o : outcome A) : M A := λ w, (o, w).

Definition bullet (v : str) : str := [8226%N] ++ lit " " ++ v.

(** What one iteration of the second loop of [view_entries] adds to
    [msg]. *)
Definition section_of (cat : str) (values : list str) : str :=
  lit "*" ++ capitalize cat ++ lit "* (" ++ str_of_nat (length values) ++
  lit " entries):" ++ [LF] ++
  (match values with
   | [] => lit "_No entries yet_" ++ [LF]
   | _ :: _ => join [LF] (map bullet (last5 values)) ++ [LF]
   end) ++ [LF].

Definition render (cats : list (str * list str)) : str :=
  fold_left (λ msg cv, msg ++ section_of (fst cv) (snd cv)) cats overview_header.

Section Bot.

(** The administrator's identity, read from the environment at start-up. *)
Variable ADMIN_ID : Z.

Definition handle_message (user : Sender) (message_text : str) : M unit :=
  let text := strip message_text in
  state <- gets user_state ;;
  match state !! user_id user with
  | None => send (ReplyText (chat_id user) choose_first None)
  | Some category =>
      add_entry (user_id user) (first_name user) category text ;;
      send (ReplyText (chat_id user) (added_note category) Markdown) ;;
      send (SendMessage ADMIN_ID (admin_note category text (first_name user))
                        Markdown)
  end.

Definition view_entries (user : Sender) : M unit :=
  if decide (user_id user ≠ ADMIN_ID) then
    send (ReplyText (chat_id user) not_authorized None)
  else
    rows <- get_entries ;;
    match rows with
    | [] => send (ReplyText (chat_id user) (lit "No entries yet.") None)
    | _ :: _ =>
        cats <- lift (group rows cats0) ;;
        send (ReplyText (chat_id user) (render cats) Markdown)
    end.

End Bot.

(** The category tokens, in the order of the dictionary literal. *)
Definition registry : list str := map fst cats0.

(** The world of a freshly started process over a given table. *)
Definition fresh (rows : list Row) (db_ok : bool) : World :=
  mkWorld ∅ rows db_ok [].

(** One line of the report for a stored row, and the lines of one
    category in table order. *)
Definition entry_line (r : Row) : str :=
  row_username r ++ lit ": " ++ row_text r.

Definition lines_of (k : str) (rows : list Row) : list str :=
  entry_line <$> filter (λ r, row_category r = k) rows.

(** The same on the tuples that [get_entries] returns. *)
Definition tuple_lines (k : str) (rows : list (str * str * str)) : list str :=
  (λ r, r.1.2 ++ lit ": " ++ r.2) <$> filter (λ r, r.1.1 = k) rows.

Definition as_tuple (r : Row) : str * str * str :=
  (row_category r, row_username r, row_text r).

(** The report over a table all of whose categories are known: the
    header and then one section per key of [cats0], in that order. *)
Definition report_of (rows : list Row) : str :=
  overview_header ++
  concat ((λ k, section_of k (lines_of k rows)) <$> registry).

(** The world after one more transport call. *)
Definition sent (w : World) (s : list Sent) : World :=
  mkWorld (user_state w) (entries w) (db_available w) (outbox w ++ s).

(** What [cats[k].append(v)] does to one item of the dictionary. *)
Definition append_at (k v : str) (kv : str * list str) : str * list str :=
  (kv.1, if decide (k = kv.1) then kv.2 ++ [v] else kv.2).

(** ** Sample data used to instantiate the statements *)

Definition ann : Sender := mkSender 7 (lit "Ann") 7.
Definition boss : Sender := mkSender 1 (lit "Boss") 1.
Definition fruits : str := lit "fruits".
Definition meat : str := lit "meat".

(** A process in which user 7 has chosen [fruits]. *)
Definition chosen (db_ok : bool) : World :=
  mkWorld {[ 7 := fruits ]} [] db_ok [].

(** A table with seven [fruits] rows and one [drinks] row between them. *)
Definition seven_fruits : list Row :=
  [ mkRow 1 7 (lit "Ann") fruits (lit "apple");
    mkRow 2 7 (lit "Ann") fruits (lit "pear");
    mkRow 3 8 (lit "Bob") (lit "drinks") (lit "tea");
    mkRow 4 7 (lit "Ann") fruits (lit "plum");
    mkRow 5 8 (lit "Bob") fruits (lit "fig");
    mkRow 6 7 (lit "Ann") fruits (lit "kiwi");
    mkRow 7 8 (lit "Bob") fruits (lit "lime");
    mkRow 8 7 (lit "Ann") fruits (lit "date") ].

(** ** The rest of the module: start-up, dispatch *)

(** The environment after [load_dotenv()], as [os.getenv] reads it. *)
Definition getenv (env : gmap string str) (name : string) : option str :=
  env !! name.

(** Truth value of what [os.getenv] returns: [None] and the empty
    string are false. *)
Definition truthy (v : option str) : bool :=
  match v with
  | Some (_ :: _) => true
  | _ => false
  end.

Inductive startup_error :=
| ValueError
| RuntimeError (message : str).

Definition token_not_set : str :=
  lit "BOT_TOKEN environment variable not set. Please create a .env file or set BOT_TOKEN in your environment.".

Definition admin_not_set : str :=
  lit "ADMIN_ID environment variable not set. Please create a .env file or set ADMIN_ID in your environment.".

Section Config.

(** Python's [int] on a string: [None] stands for its [ValueError]. *)
Variable int_of_str : str → option Z.

(** The module-level statements that read [BOT_TOKEN] and [ADMIN_ID],
    in their order: the conversion of [ADMIN_ID] comes before both
    checks.  The result is the pair the handlers run with. *)
Definition load_config (env : gmap string str)
  : startup_error + (str * Z) :=
  let BOT_TOKEN := getenv env "BOT_TOKEN" in
  match
    (if truthy (getenv env "ADMIN_ID")
     then match int_of_str (default [] (getenv env "ADMIN_ID")) with
          | Some n => inr (Some n)
          | None => inl ValueError
          end
     else inr None)
  with
  | inl e => inl e
  | inr ADMIN_ID =>
      if negb (truthy BOT_TOKEN) then inl (RuntimeError token_not_set)
      else match ADMIN_ID with
           | None => inl (RuntimeError admin_not_set)
           | Some n => inr (default [] BOT_TOKEN, n)
           end
  end.

End Config.

(** [init_db]: [CREATE TABLE IF NOT EXISTS entries]; the table is
    [None] until it has been created. *)
Definition init_db (db_ok : bool) (table : option (list Row))
  : outcome (list Row) :=
  if db_ok then Returned (default [] table) else Raised OperationalError.

(** The start of [run_bot]: the table is initialised and the handlers
    start from the empty [user_state] of a new process. *)
Definition run_bot (db_ok : bool) (table : option (list Row)) : outcome World :=
  match init_db db_ok table with
  | Returned rows => Returned (fresh rows db_ok)
  | Raised e => Raised e
  end.

(** An update as the dispatcher classifies it, after the four
    registrations of [run_bot]: the commands [/start] and [/view], a
    callback query, a text that is not a command, and anything else,
    for which no handler is registered. *)
Inductive Update :=
| UStart (user : Sender)
| UView (user : Sender)
| UCallback (from_user : Sender) (data : str)
| UText (user : Sender) (text : str)
| UOther.

(** The same world with the database reachable or not. *)
Definition with_db (ok : bool) (w : World) : World :=
  mkWorld (user_state w) (entries w) ok (outbox w).

Section Dispatcher.

Variable ADMIN_ID : Z.

Definition dispatch (upd : Update) : M unit :=
  match upd with
  | UStart u => start u
  | UView u => view_entries ADMIN_ID u
  | UCallback u d => choose_category u d
  | UText u t => handle_message ADMIN_ID u t
  | UOther => ret tt
  end.

(** One update, arriving while the database is reachable or not.  An
    exception that leaves a handler is logged by the dispatcher and the
    next update is taken. *)
Definition process (w : World) (ev : bool * Update) : World :=
  (dispatch ev.2 (with_db ev.1 w)).2.

Definition run (evs : list (bool * Update)) (w : World) : World :=
  foldl process w evs.

(** The notification that [handle_message] sends for a stored row. *)
Definition note_for (r : Row) : Sent :=
  SendMessage ADMIN_ID
    (admin_note (row_category r) (row_text r) (row_username r)) Markdown.

End Dispatcher.

Definition is_send_message (s : Sent) : bool :=
  match s with
  | SendMessage _ _ _ => true
  | _ => false
  end.

(** The [send_message] calls among the transport calls. *)
Definition notifications (out : list Sent) : list Sent :=
  filter (λ s, is_send_message s = true) out.

(** The token of the latest callback query of user [uid] in a run, or
    [init] when there is none. *)
Definition last_choice (uid : Z) (evs : list (bool * Update))
    (init : option str) : option str :=
  foldl (λ acc ev,
           match ev.2 with
           | UCallback u d => if decide (user_id u = uid) then Some d else acc
           | _ => acc
           end) init evs.

(** Selections and stored categories all within the registry. *)
Definition within_registry (w : World) : Prop :=
  (∀ uid c, user_state w !! uid = Some c → c ∈ registry) ∧
  Forall (λ r, row_category r ∈ registry) (entries w).

(** The callback queries of a run all carry the token of a button of
    the keyboard sent by [start]. *)
Definition buttons_only (evs : list (bool * Update)) : Prop :=
  Forall (λ ev, match ev.2 with
                | UCallback _ d => d ∈ callback_data <$> concat keyboard
                | _ => True
                end) evs.

(** A run with two users, one of them writing in a group chat, an
    outage and a change of mind. *)
Definition bob : Sender := mkSender 8 (lit "Bob") (-200).

Definition busy_day : list (bool * Update) :=
  [ (true, UStart ann);
    (true, UCallback ann fruits);
    (true, UCallback bob (lit "drinks"));
    (false, UText ann (lit "apple"));
    (true, UText bob (lit " tea "));
    (true, UCallback ann (lit "others"));
    (true, UView ann) ].

(** [seven_fruits] followed by two rows of categories that no button
    offers. *)
Definition spoiled : list Row :=
  seven_fruits ++ [mkRow 9 7 (lit "Ann") meat (lit "steak");
                   mkRow 10 7 (lit "Ann") (lit "fish") (lit "cod")].

(** Identifiers grow along the table. *)
Definition ids_increasing (rows : list Row) : Prop :=
  ∀ i j ri rj, rows !! i = Some ri → rows !! j = Some rj → (i < j)%nat →
               row_id ri < row_id rj.

(** The sender of an update, when it has one. *)
Definition origin (upd : Update) : option Sender :=
  match upd with
  | UStart u => Some u
  | UView u => Some u
  | UCallback u _ => Some u
  | UText u _ => Some u
  | UOther => None
  end.

(** * Properties *)

(** ** Strings *)

(** The white space of [strip], code point by code point. *)
Lemma isspace_table (c : N) :
  isspace c = true ↔
  c ∈ [9; 10; 11; 12; 13; 28; 29; 30; 31; 32; 133; 160; 5760; 8192; 8193;
       8194; 8195; 8196; 8197; 8198; 8199; 8200; 8201; 8202; 8232; 8233;
       8239; 8287; 12288]%N.
Proof.
  unfold isspace.
  rewrite !orb_true_iff, !andb_true_iff, !N.leb_le, !N.eqb_eq.
  rewrite !elem_of_cons, elem_of_nil. lia.
Qed.

Lemma lstrip_split (s : str) :
  ∃ pre, s = pre ++ lstrip s ∧ Forall (λ c, isspace c = true) pre.
Proof.
  induction s as [|c s IH]; simpl.
  - exists []. split; [done | constructor].
  - destruct (isspace c) eqn:Hc.
    + destruct IH as (pre & Heq & Hpre).
      exists (c :: pre). split; [simpl; congruence | by constructor].
    + exists []. split; [done | constructor].
Qed.

Lemma lstrip_head (s : str) (c : N) (r : str) :
  lstrip s = c :: r → isspace c = false.
Proof.
  induction s as [|a s IH]; simpl; [done |].
  destruct (isspace a) eqn:Ha; [exact IH |].
  intros [= -> _]. exact Ha.
Qed.

Lemma rstrip_split (s : str) :
  ∃ post, s = rstrip s ++ post ∧ Forall (λ c, isspace c = true) post.
Proof.
  destruct (lstrip_split (rev s)) as (pre & Heq & Hpre).
  exists (rev pre). split.
  - unfold rstrip. rewrite <- rev_app_distr, <- Heq. by rewrite rev_involutive.
  - by apply Forall_rev.
Qed.

Lemma strip_split (s : str) :
  ∃ pre post, s = pre ++ strip s ++ post ∧
    Forall (λ c, isspace c = true) pre ∧ Forall (λ c, isspace c = true) post.
Proof.
  destruct (lstrip_split s) as (pre & Heq & Hpre).
  destruct (rstrip_split (lstrip s)) as (post & Heq' & Hpost).
  exists pre, post. split; [| done].
  unfold strip. by rewrite <- Heq'.
Qed.

Lemma strip_first (s : str) (c : N) (r : str) :
  strip s = c :: r → isspace c = false.
Proof.
  intros Hs. destruct (rstrip_split (lstrip s)) as (post & Heq & _).
  fold (strip s) in Heq. rewrite Hs in Heq. simpl in Heq.
  by apply lstrip_head in Heq.
Qed.

Lemma strip_last (s : str) (c : N) (r : str) :
  strip s = r ++ [c] → isspace c = false.
Proof.
  unfold strip, rstrip. intros Hs.
  apply (f_equal (@rev N)) in Hs.
  rewrite rev_involutive, rev_app_distr in Hs. simpl in Hs.
  by apply lstrip_head in Hs.
Qed.

Lemma lstrip_all_space (s : str) :
  Forall (λ c, isspace c = true) s → lstrip s = [].
Proof.
  induction 1 as [|c s Hc _ IH]; simpl; [done |]. by rewrite Hc.
Qed.

Lemma strip_all_space (s : str) :
  Forall (λ c, isspace c = true) s → strip s = [].
Proof. intros Hs. unfold strip. by rewrite lstrip_all_space. Qed.

(** ** The grouping loop *)

Lemma dict_append_None (k v : str) (cats : list (str * list str)) :
  dict_append k v cats = None ↔ k ∉ cats.*1.
Proof.
  induction cats as [|[k' vs] rest IH]; csimpl.
  - split; [intros _; apply not_elem_of_nil | done].
  - rewrite not_elem_of_cons. destruct (decide (k = k')) as [Heq|Hne].
    + split; [done | by intros [? _]].
    + rewrite fmap_None, IH. by split; [| intros [_ ?]].
Qed.

Lemma append_at_absent (k v : str) (cats : list (str * list str)) :
  k ∉ cats.*1 → append_at k v <$> cats = cats.
Proof.
  induction cats as [|[k' vs] rest IH]; csimpl; [done |].
  rewrite not_elem_of_cons. intros [Hne Hrest].
  unfold append_at at 1. simpl. destruct (decide (k = k')); [done |].
  by rewrite IH.
Qed.

Lemma dict_append_Some (k v : str) (cats : list (str * list str)) :
  NoDup cats.*1 → k ∈ cats.*1 →
  dict_append k v cats = Some (append_at k v <$> cats).
Proof.
  induction cats as [|[k' vs] rest IH]; csimpl.
  - intros _ Hk. by apply elem_of_nil in Hk.
  - rewrite NoDup_cons. intros [Hk' Hnd] Hk.
    unfold append_at at 1. simpl.
    destruct (decide (k = k')) as [->|Hne].
    + by rewrite append_at_absent.
    + apply elem_of_cons in Hk as [? | Hk]; [done |].
      by rewrite IH.
Qed.

Lemma append_at_keys (k v : str) (cats : list (str * list str)) :
  (append_at k v <$> cats).*1 = cats.*1.
Proof. rewrite <- list_fmap_compose. by apply list_fmap_ext. Qed.

Lemma group_known (rows : list (str * str * str)) (cats : list (str * list str)) :
  NoDup cats.*1 → Forall (λ r, r.1.1 ∈ cats.*1) rows →
  group rows cats =
  Returned ((λ kv, (kv.1, kv.2 ++ tuple_lines kv.1 rows)) <$> cats).
Proof.
  revert cats. induction rows as [|[[c u] t] rest IH]; intros cats Hnd Hall.
  - cbn [group]. f_equal. rewrite <- (list_fmap_id cats) at 1.
    apply list_fmap_ext. intros _ [k vs] _. cbn [fst snd].
    unfold tuple_lines. rewrite filter_nil, fmap_nil. by rewrite app_nil_r.
  - apply Forall_cons in Hall as [Hc Hrest]. cbn [fst snd] in Hc. cbn [group].
    rewrite dict_append_Some by done.
    rewrite IH by (by rewrite append_at_keys).
    f_equal. rewrite <- list_fmap_compose.
    apply list_fmap_ext. intros _ [k vs] _. unfold append_at, compose. cbn [fst snd].
    unfold tuple_lines. rewrite filter_cons. cbn [fst snd].
    destruct (decide (c = k)); [| done].
    rewrite fmap_cons. cbn [fst snd]. by rewrite <- app_assoc.
Qed.

Lemma dict_append_keys (k v : str) (cats cats' : list (str * list str)) :
  dict_append k v cats = Some cats' → cats'.*1 = cats.*1.
Proof.
  revert cats'. induction cats as [|[k' vs] rest IH]; intros cats'; simpl.
  - done.
  - destruct (decide (k = k')).
    + by intros [= <-].
    + destruct (dict_append k v rest) as [rest'|]; simpl; [| done].
      intros [= <-]. csimpl. f_equal. by apply IH.
Qed.

Lemma group_unknown (rows : list (str * str * str)) (cats : list (str * list str))
    (e : exn) :
  group rows cats = Raised e →
  ∃ c u t, e = KeyError c ∧ (c ∉ cats.*1) ∧ (c, u, t) ∈ rows.
Proof.
  revert cats. induction rows as [|[[c u] t] rest IH]; intros cats; cbn [group].
  - done.
  - destruct (dict_append c (u ++ lit ": " ++ t) cats) as [cats'|] eqn:Hd.
    + intros Hg. apply IH in Hg as (c' & u' & t' & -> & Hc' & Hin).
      exists c', u', t'. rewrite (dict_append_keys _ _ _ _ Hd) in Hc'.
      split; [done |]. split; [done | by right].
    + intros [= <-]. exists c, u, t.
      split; [done |]. split; [by apply dict_append_None in Hd | by left].
Qed.

Lemma tuple_lines_rows (k : str) (rows : list Row) :
  tuple_lines k (as_tuple <$> rows) = lines_of k rows.
Proof.
  unfold tuple_lines, lines_of.
  induction rows as [|r rows IH]; [done |].
  rewrite fmap_cons, !filter_cons. unfold as_tuple at 1. cbn [fst snd].
  destruct (decide (row_category r = k)); rewrite ?fmap_cons, IH; done.
Qed.

Lemma render_sections (cats : list (str * list str)) :
  render cats =
  overview_header ++ concat ((λ kv, section_of kv.1 kv.2) <$> cats).
Proof.
  unfold render. generalize overview_header.
  induction cats as [|kv cats IH]; intros msg; csimpl.
  - by rewrite app_nil_r.
  - by rewrite IH, <- app_assoc.
Qed.

Lemma registry_NoDup : NoDup cats0.*1.
Proof. by apply (bool_decide_unpack _); vm_compute. Qed.

Lemma registry_keyboard :
  callback_data <$> concat keyboard = registry.
Proof. reflexivity. Qed.

(** ** Running the handlers *)

Lemma choose_category_run (u : Sender) (t : str) (w : World) :
  choose_category u t w =
  (Returned tt,
   mkWorld (<[user_id u := t]> (user_state w)) (entries w) (db_available w)
     (outbox w ++
      [Answer (user_id u);
       EditMessageText (chat_id u)
         (lit "You chose *" ++ capitalize t ++ lit "*." ++ [LF] ++
          lit "Now send me your entry.") Markdown])).
Proof.
  unfold choose_category, bind, send, set_user_state.
  cbn [user_state entries db_available outbox].
  by rewrite <- app_assoc.
Qed.

Section Handlers.

Variable ADMIN_ID : Z.

Lemma handle_message_no_selection (u : Sender) (t : str) (w : World) :
  user_state w !! user_id u = None →
  handle_message ADMIN_ID u t w =
  (Returned tt, sent w [ReplyText (chat_id u) choose_first None]).
Proof.
  intros Hnone. unfold handle_message, bind, gets. by rewrite Hnone.
Qed.

Lemma handle_message_stored (u : Sender) (t c : str) (w : World) :
  user_state w !! user_id u = Some c →
  db_available w = true →
  handle_message ADMIN_ID u t w =
  (Returned tt,
   mkWorld (user_state w)
     (entries w ++
      [mkRow (next_id (entries w)) (user_id u) (first_name u) c (strip t)])
     (db_available w)
     (outbox w ++
      [ReplyText (chat_id u) (added_note c) Markdown;
       SendMessage ADMIN_ID (admin_note c (strip t) (first_name u)) Markdown])).
Proof.
  intros Hsel Hdb.
  unfold handle_message, bind, gets. rewrite Hsel.
  unfold add_entry, bind, connect. rewrite Hdb.
  unfold insert_row, send. cbn [user_state entries db_available outbox].
  by rewrite <- app_assoc, Hdb.
Qed.

Lemma handle_message_db_down (u : Sender) (t c : str) (w : World) :
  user_state w !! user_id u = Some c →
  db_available w = false →
  handle_message ADMIN_ID u t w = (Raised OperationalError, w).
Proof.
  intros Hsel Hdb.
  unfold handle_message, bind, gets. rewrite Hsel.
  unfold add_entry, bind, connect. by rewrite Hdb.
Qed.

Lemma view_entries_denied (r : Sender) (w : World) :
  user_id r ≠ ADMIN_ID →
  view_entries ADMIN_ID r w =
  (Returned tt, sent w [ReplyText (chat_id r) not_authorized None]).
Proof.
  intros Hne. unfold view_entries. by destruct (decide (user_id r ≠ ADMIN_ID)).
Qed.

Lemma view_entries_fetch (a : Sender) (w : World) :
  user_id a = ADMIN_ID →
  db_available w = true →
  view_entries ADMIN_ID a w =
  match entries w with
  | [] => (Returned tt, sent w [ReplyText (chat_id a) (lit "No entries yet.") None])
  | _ :: _ =>
      match group (as_tuple <$> entries w) cats0 with
      | Returned cats =>
          (Returned tt, sent w [ReplyText (chat_id a) (render cats) Markdown])
      | Raised e => (Raised e, w)
      end
  end.
Proof.
  intros Ha Hdb. unfold view_entries.
  destruct (decide (user_id a ≠ ADMIN_ID)) as [Hne|_]; [done |].
  unfold get_entries, bind, connect, gets, ret. rewrite Hdb.
  destruct (entries w) as [|r rows] eqn:Hrows; [done |].
  unfold lift. change (map (λ r0, (row_category r0, row_username r0, row_text r0)) (r :: rows))
    with (as_tuple <$> r :: rows).
  by destruct (group (as_tuple <$> r :: rows) cats0).
Qed.

Lemma view_entries_db_down (a : Sender) (w : World) :
  user_id a = ADMIN_ID →
  db_available w = false →
  view_entries ADMIN_ID a w = (Raised OperationalError, w).
Proof.
  intros Ha Hdb. unfold view_entries.
  destruct (decide (user_id a ≠ ADMIN_ID)) as [Hne|_]; [done |].
  unfold get_entries, bind, connect. by rewrite Hdb.
Qed.

Lemma group_rows_known (rows : list Row) :
  Forall (λ r, row_category r ∈ registry) rows →
  group (as_tuple <$> rows) cats0 =
  Returned ((λ k, (k, lines_of k rows)) <$> registry).
Proof.
  intros Hall. rewrite group_known.
  - f_equal. unfold registry. rewrite <- list_fmap_compose.
    unfold cats0. rewrite !fmap_cons, !fmap_nil. unfold compose.
    cbn [fst snd app]. by rewrite !tuple_lines_rows.
  - apply registry_NoDup.
  - apply Forall_fmap. eapply Forall_impl; [exact Hall | by intros r].
Qed.

Lemma render_registry (rows : list Row) :
  render ((λ k, (k, lines_of k rows)) <$> registry) = report_of rows.
Proof.
  rewrite render_sections. unfold report_of.
  by rewrite <- list_fmap_compose.
Qed.

Lemma view_entries_report (a : Sender) (w : World) :
  user_id a = ADMIN_ID →
  db_available w = true →
  entries w ≠ [] →
  Forall (λ r, row_category r ∈ registry) (entries w) →
  view_entries ADMIN_ID a w =
  (Returned tt,
   sent w [ReplyText (chat_id a) (report_of (entries w)) Markdown]).
Proof.
  intros Ha Hdb Hne Hall. rewrite view_entries_fetch by done.
  destruct (entries w) as [|r rows] eqn:Hrows; [done |].
  by rewrite group_rows_known, render_registry.
Qed.

End Handlers.

(** ** Substrings *)

Lemma starts_with_app (p s : str) : starts_with p (p ++ s) = true.
Proof.
  induction p as [|a p IH]; [done |].
  cbn [app starts_with]. by rewrite N.eqb_refl, IH.
Qed.

Lemma contains_here (x s : str) : contains (x ++ s) x = true.
Proof.
  assert (H : ∀ l, contains l x = starts_with x l ||
            match l with [] => false | _ :: l' => contains l' x end)
    by (by intros []).
  by rewrite H, starts_with_app.
Qed.

Lemma contains_later (pre s x : str) :
  contains s x = true → contains (pre ++ s) x = true.
Proof.
  intros Hs. induction pre as [|a pre IH]; [done |].
  cbn [app contains]. by rewrite IH, orb_true_r.
Qed.

Lemma contains_mid (pre x post : str) : contains (pre ++ x ++ post) x = true.
Proof. apply contains_later, contains_here. Qed.

Lemma contains_end (pre x : str) : contains (pre ++ x) x = true.
Proof.
  apply contains_later. rewrite <- (app_nil_r x) at 1. apply contains_here.
Qed.

Lemma admin_note_mentions (category text name : str) :
  contains (admin_note category text name) (capitalize category) = true ∧
  contains (admin_note category text name) text = true ∧
  contains (admin_note category text name) name = true.
Proof.
  unfold admin_note. repeat split.
  - rewrite (app_assoc [_]). apply contains_mid.
  - rewrite !(app_assoc _ _ (text ++ _)). apply contains_mid.
  - rewrite !app_assoc. apply contains_end.
Qed.

(** * The claims *)

(** C1.  Choosing a category of the registry and then sending a text
    appends exactly one row, carrying the chosen category and the
    stripped text (for ["hello"], the text itself), and makes exactly
    one [send_message] call to the administrator, whose body contains
    the stripped text, the capitalized category and the sender's first
    name.  The database is taken to accept the write. *)
Theorem choose_then_text_stores_and_notifies
    (ADMIN_ID : Z) (u : Sender) (c message_text : str) (w : World) :
  c ∈ registry →
  db_available w = true →
  let text := strip message_text in
  let note := admin_note c text (first_name u) in
  (choose_category u c ;; handle_message ADMIN_ID u message_text) w =
  (Returned tt,
   mkWorld (<[user_id u := c]> (user_state w))
     (entries w ++
      [mkRow (next_id (entries w)) (user_id u) (first_name u) c text])
     (db_available w)
     (outbox w ++
      [Answer (user_id u);
       EditMessageText (chat_id u)
         (lit "You chose *" ++ capitalize c ++ lit "*." ++ [LF] ++
          lit "Now send me your entry.") Markdown;
       ReplyText (chat_id u) (added_note c) Markdown;
       SendMessage ADMIN_ID note Markdown])) ∧
  contains note (capitalize c) = true ∧
  contains note text = true ∧
  contains note (first_name u) = true ∧
  strip (lit "hello") = lit "hello".
Proof.
  intros Hc Hdb text note. split; [| split; [| split; [| split]]];
    try apply admin_note_mentions; [| done].
  unfold bind at 1. rewrite choose_category_run.
  rewrite (handle_message_stored _ _ _ c).
  - cbn [user_state entries db_available outbox]. by rewrite <- app_assoc.
  - cbn [user_state]. apply lookup_insert_eq.
  - done.
Qed.

(** C2, as the code has it.  [choose_category] records whatever token
    the callback carries: for every token, in the registry or not, the
    handler returns normally, the user's selection becomes that token,
    and the user is told so. *)
Theorem choose_category_records_any_token (u : Sender) (t : str) (w : World) :
  choose_category u t w =
  (Returned tt,
   mkWorld (<[user_id u := t]> (user_state w)) (entries w) (db_available w)
     (outbox w ++
      [Answer (user_id u);
       EditMessageText (chat_id u)
         (lit "You chose *" ++ capitalize t ++ lit "*." ++ [LF] ++
          lit "Now send me your entry.") Markdown])) ∧
  user_state (choose_category u t w).2 !! user_id u = Some t.
Proof.
  rewrite choose_category_run. split; [done |].
  cbn [snd user_state]. apply lookup_insert_eq.
Qed.

(** C3.  A text from a user with no entry in [user_state] only produces
    the reply asking to choose a category first: no row is inserted, no
    message goes to the administrator, and [user_state] is unchanged. *)
Theorem text_without_selection_only_prompts
    (ADMIN_ID : Z) (u : Sender) (message_text : str) (w : World) :
  user_state w !! user_id u = None →
  let r := handle_message ADMIN_ID u message_text w in
  r.1 = Returned tt ∧
  entries r.2 = entries w ∧
  user_state r.2 = user_state w ∧
  outbox r.2 = outbox w ++ [ReplyText (chat_id u) choose_first None].
Proof.
  intros Hnone r. subst r. by rewrite handle_message_no_selection.
Qed.

(** C4, as the code has it.  When the database cannot be written, the
    exception of [add_entry] leaves [handle_message]: nothing is sent
    (neither to the user nor to the administrator), no row is added and
    the selection is kept. *)
Theorem storage_failure_raises_out_of_handler
    (ADMIN_ID : Z) (u : Sender) (c message_text : str) (w : World) :
  user_state w !! user_id u = Some c →
  db_available w = false →
  handle_message ADMIN_ID u message_text w = (Raised OperationalError, w).
Proof. apply handle_message_db_down. Qed.

(** C5.  After one choice of [c], two texts in a row are stored as two
    rows, both under [c], and the selection is still [c] afterwards: a
    stored submission does not touch [user_state]. *)
Theorem selection_is_sticky
    (ADMIN_ID : Z) (u : Sender) (c text1 text2 : str) (w : World) :
  db_available w = true →
  let w1 := (choose_category u c w).2 in
  let r := (handle_message ADMIN_ID u text1 ;;
            handle_message ADMIN_ID u text2) w1 in
  let row1 := mkRow (next_id (entries w)) (user_id u) (first_name u) c
                    (strip text1) in
  let row2 := mkRow (next_id (entries w ++ [row1])) (user_id u) (first_name u) c
                    (strip text2) in
  r.1 = Returned tt ∧
  entries r.2 = entries w ++ [row1; row2] ∧
  user_state (handle_message ADMIN_ID u text1 w1).2 = user_state w1 ∧
  user_state r.2 = user_state w1 ∧
  user_state r.2 !! user_id u = Some c.
Proof.
  intros Hdb w1 r row1 row2.
  assert (Hsel : user_state w1 !! user_id u = Some c).
  { subst w1. rewrite choose_category_run. cbn [snd user_state].
    apply lookup_insert_eq. }
  assert (Hdb1 : db_available w1 = true).
  { subst w1. by rewrite choose_category_run. }
  assert (Hrows : entries w1 = entries w).
  { subst w1. by rewrite choose_category_run. }
  subst r. unfold bind.
  rewrite (handle_message_stored _ _ _ c) by done.
  rewrite (handle_message_stored _ _ _ c) by done.
  cbn [fst snd user_state entries]. rewrite Hrows, <- app_assoc.
  done.
Qed.

(** C8.  A [/view] from anyone but the administrator is answered with
    the fixed refusal and nothing else; the table is not read, so the
    reply is the same whatever the table holds. *)
Theorem view_by_non_admin_is_refused
    (ADMIN_ID : Z) (r : Sender) (w : World) :
  user_id r ≠ ADMIN_ID →
  view_entries ADMIN_ID r w =
    (Returned tt, sent w [ReplyText (chat_id r) not_authorized None]) ∧
  ∀ rows,
    outbox (view_entries ADMIN_ID r
              (mkWorld (user_state w) rows (db_available w) (outbox w))).2 =
    outbox (view_entries ADMIN_ID r w).2.
Proof.
  intros Hne. split; [by apply view_entries_denied |].
  intros rows. by rewrite !view_entries_denied.
Qed.

(** C9.  With a category selected, the text is stored stripped of the
    white space at both ends: what is stored is the text without a
    prefix and a suffix made of white space only, and it neither starts
    nor ends with white space.  No check rejects an empty result: a
    text of white space only is stored as the empty string. *)
Theorem text_is_stored_stripped
    (ADMIN_ID : Z) (u : Sender) (c message_text : str) (w : World) :
  user_state w !! user_id u = Some c →
  db_available w = true →
  let r := handle_message ADMIN_ID u message_text w in
  r.1 = Returned tt ∧
  entries r.2 =
    entries w ++
    [mkRow (next_id (entries w)) (user_id u) (first_name u) c
           (strip message_text)] ∧
  (∃ pre post, message_text = pre ++ strip message_text ++ post ∧
     Forall (λ ch, isspace ch = true) pre ∧
     Forall (λ ch, isspace ch = true) post) ∧
  (∀ ch rest, strip message_text = ch :: rest → isspace ch = false) ∧
  (∀ ch rest, strip message_text = rest ++ [ch] → isspace ch = false) ∧
  (Forall (λ ch, isspace ch = true) message_text →
   entries r.2 =
     entries w ++
     [mkRow (next_id (entries w)) (user_id u) (first_name u) c []]).
Proof.
  intros Hsel Hdb r. subst r.
  rewrite (handle_message_stored _ _ _ c) by done. cbn [fst snd entries].
  split; [done |]. split; [done |].
  split; [apply strip_split |].
  split; [apply strip_first |].
  split; [apply strip_last |].
  intros Hws. by rewrite strip_all_space.
Qed.

Lemma registry_labels (c : str) :
  c ∈ registry →
  (c, capitalize c) ∈
    [ (lit "fruits", lit "Fruits"); (lit "vegetables", lit "Vegetables");
      (lit "drinks", lit "Drinks"); (lit "others", lit "Others") ].
Proof.
  intros Hc. unfold registry, cats0 in Hc. cbn [map fst] in Hc.
  repeat (apply elem_of_cons in Hc as [-> | Hc];
          [apply (bool_decide_unpack _); vm_compute; exact I |]).
  by apply elem_of_nil in Hc.
Qed.

(** [capitalize] on an ASCII token of mixed case, and on a token with
    a code point above 127, where it is the interpreter's. *)
Example capitalize_mixed_case :
  capitalize (lit "fRUITS and VEG") = lit "Fruits and veg".
Proof. reflexivity. Qed.

Example capitalize_beyond_ascii :
  capitalize ([233%N] ++ lit "clair") = capitalize_unicode ([233%N] ++ lit "clair").
Proof. reflexivity. Qed.

(** C6, as the code has it.  When every row carries one of the four
    categories and seven rows carry category [c], the administrator's
    report has, at the position of [c] in the registry, a section whose
    header gives the capitalized category and the count 7 and whose
    lines are the last five of those rows, oldest first, each the
    bullet, a space and [username: text]. *)
Theorem report_shows_last_five_of_seven
    (ADMIN_ID : Z) (a : Sender) (c : str) (w : World) :
  user_id a = ADMIN_ID →
  db_available w = true →
  Forall (λ r, row_category r ∈ registry) (entries w) →
  length (filter (λ r, row_category r = c) (entries w)) = 7%nat →
  ∃ e1 e2 e3 e4 e5 e6 e7 before after,
    filter (λ r, row_category r = c) (entries w) =
      [e1; e2; e3; e4; e5; e6; e7] ∧
    registry = before ++ c :: after ∧
    (c, capitalize c) ∈
      [ (lit "fruits", lit "Fruits"); (lit "vegetables", lit "Vegetables");
        (lit "drinks", lit "Drinks"); (lit "others", lit "Others") ] ∧
    view_entries ADMIN_ID a w =
      (Returned tt,
       sent w [ReplyText (chat_id a) (report_of (entries w)) Markdown]) ∧
    report_of (entries w) =
      overview_header ++
      concat ((λ k, section_of k (lines_of k (entries w))) <$> before) ++
      (lit "*" ++ capitalize c ++ lit "* (7 entries):" ++ [LF] ++
       [8226%N] ++ lit " " ++ row_username e3 ++ lit ": " ++ row_text e3 ++ [LF] ++
       [8226%N] ++ lit " " ++ row_username e4 ++ lit ": " ++ row_text e4 ++ [LF] ++
       [8226%N] ++ lit " " ++ row_username e5 ++ lit ": " ++ row_text e5 ++ [LF] ++
       [8226%N] ++ lit " " ++ row_username e6 ++ lit ": " ++ row_text e6 ++ [LF] ++
       [8226%N] ++ lit " " ++ row_username e7 ++ lit ": " ++ row_text e7 ++ [LF] ++
       [LF]) ++
      concat ((λ k, section_of k (lines_of k (entries w))) <$> after).
Proof.
  intros Ha Hdb Hall Hlen.
  destruct (filter _ (entries w))
    as [|e1 [|e2 [|e3 [|e4 [|e5 [|e6 [|e7 [|e8 tl]]]]]]]] eqn:Hf;
    try discriminate Hlen.
  assert (Hc : c ∈ registry).
  { assert (He : e1 ∈ filter (λ r, row_category r = c) (entries w))
      by (rewrite Hf; apply list_elem_of_here).
    apply list_elem_of_filter in He as [<- He].
    by apply (proj1 (Forall_forall _ _) Hall). }
  destruct (list_elem_of_split _ _ Hc) as (before & after & Hsplit).
  exists e1, e2, e3, e4, e5, e6, e7, before, after.
  split; [done |]. split; [done |]. split; [by apply registry_labels |]. split.
  - apply view_entries_report; try done.
    intros Hnil. rewrite Hnil in Hf. discriminate Hf.
  - unfold report_of. rewrite Hsplit at 1.
    rewrite fmap_app, fmap_cons, concat_app, concat_cons.
    do 2 f_equal. f_equal.
    unfold lines_of. rewrite Hf. unfold section_of, last5, entry_line, bullet.
    cbn [fmap list_fmap map length Nat.sub drop join].
    rewrite <- !app_assoc. reflexivity.
Qed.

(** C7, as the code has it.  Over an empty table the administrator gets
    the single line [No entries yet.] and no category is listed.  Over a
    table that is not empty and holds only categories of the registry,
    the report has one section for each of the four categories, in the
    order of the registry, and a category without rows is shown with
    count 0 and the line [_No entries yet_]. *)
Theorem report_lists_categories_unless_empty
    (ADMIN_ID : Z) (a : Sender) (w : World) :
  user_id a = ADMIN_ID →
  db_available w = true →
  Forall (λ r, row_category r ∈ registry) (entries w) →
  (entries w = [] →
   view_entries ADMIN_ID a w =
     (Returned tt,
      sent w [ReplyText (chat_id a) (lit "No entries yet.") None])) ∧
  (entries w ≠ [] →
   view_entries ADMIN_ID a w =
     (Returned tt,
      sent w [ReplyText (chat_id a) (report_of (entries w)) Markdown]) ∧
   report_of (entries w) =
     overview_header ++
     section_of (lit "fruits") (lines_of (lit "fruits") (entries w)) ++
     section_of (lit "vegetables") (lines_of (lit "vegetables") (entries w)) ++
     section_of (lit "drinks") (lines_of (lit "drinks") (entries w)) ++
     section_of (lit "others") (lines_of (lit "others") (entries w))) ∧
  (∀ k, lines_of k (entries w) = [] →
   section_of k (lines_of k (entries w)) =
     lit "*" ++ capitalize k ++ lit "* (0 entries):" ++ [LF] ++
     lit "_No entries yet_" ++ [LF; LF]).
Proof.
  intros Ha Hdb Hall. split; [| split].
  - intros Hnil. rewrite view_entries_fetch by done. by rewrite Hnil.
  - intros Hne. split; [by apply view_entries_report |].
    unfold report_of, registry, cats0.
    rewrite !fmap_cons, !fmap_nil. cbn [fst concat].
    by rewrite app_nil_r.
  - intros k Hk. rewrite Hk. unfold section_of. cbn [length].
    rewrite <- !app_assoc. reflexivity.
Qed.

Lemma group_returned_known (rows : list (str * str * str))
    (cats cats' : list (str * list str)) :
  group rows cats = Returned cats' → Forall (λ r, r.1.1 ∈ cats.*1) rows.
Proof.
  revert cats. induction rows as [|[[c u] t] rest IH]; intros cats; cbn [group].
  - intros _. constructor.
  - destruct (dict_append c (u ++ lit ": " ++ t) cats) as [cats''|] eqn:Hd;
      [| done].
    intros Hg. apply IH in Hg. rewrite (dict_append_keys _ _ _ _ Hd) in Hg.
    constructor; [| done]. cbn [fst].
    destruct (decide (c ∈ cats.*1)) as [|Hn]; [done |].
    apply dict_append_None with (v := u ++ lit ": " ++ t) in Hn. congruence.
Qed.

Lemma meat_unknown : meat ∉ registry.
Proof. intros Hin. apply (bool_decide_pack _) in Hin. by vm_compute in Hin. Qed.

(** C10.  The grouping loop returns exactly when every row carries one
    of the four categories; when it raises, it raises [KeyError] for
    the category of a stored row that is outside them.  Such a row can
    be stored: from a fresh process, choosing the token [meat], sending
    a text and asking for the report ends in [KeyError] for [meat]. *)
Theorem grouping_fails_only_on_unknown_category (ADMIN_ID : Z) :
  (∀ rows : list Row,
     (∃ cats, group (as_tuple <$> rows) cats0 = Returned cats) ↔
     Forall (λ r, row_category r ∈ registry) rows) ∧
  (∀ (rows : list Row) (e : exn),
     group (as_tuple <$> rows) cats0 = Raised e →
     ∃ r, r ∈ rows ∧ (row_category r ∉ registry) ∧
          e = KeyError (row_category r)) ∧
  (∀ (u : Sender) (name message_text : str) (chat : Z),
     (meat ∉ registry) ∧
     ((choose_category u meat ;;
       handle_message ADMIN_ID u message_text ;;
       view_entries ADMIN_ID (mkSender ADMIN_ID name chat)) (fresh [] true)).1 =
     Raised (KeyError meat)).
Proof.
  split; [| split].
  - intros rows. split.
    + intros [cats Hg]. apply group_returned_known in Hg.
      apply Forall_fmap in Hg. eapply Forall_impl; [exact Hg | by intros r].
    + intros Hall. eexists. by apply group_rows_known.
  - intros rows e Hg.
    apply group_unknown in Hg as (c & u & t & -> & Hc & Hin).
    apply list_elem_of_fmap in Hin as (r & Hr & Hin).
    exists r. unfold as_tuple in Hr. injection Hr as -> _ _. done.
  - intros u name message_text chat. split; [apply meat_unknown |].
    unfold bind at 1. rewrite choose_category_run.
    unfold bind. rewrite (handle_message_stored _ _ _ meat);
      [| cbn [user_state]; apply lookup_insert_eq | done].
    rewrite view_entries_fetch by done.
    unfold fresh.
    cbn [entries app fmap list_fmap as_tuple row_category row_username row_text
         group].
    pose proof meat_unknown as Hm.
    apply dict_append_None
      with (v := first_name u ++ lit ": " ++ strip message_text) in Hm.
    unfold registry in Hm. by rewrite Hm.
Qed.

(** * Further properties of the module *)

(** ** The database functions *)

Lemma add_entry_run (uid : Z) (username category text : str) (w : World) :
  db_available w = true →
  add_entry uid username category text w =
  (Returned tt,
   mkWorld (user_state w)
     (entries w ++ [mkRow (next_id (entries w)) uid username category text])
     (db_available w) (outbox w)).
Proof.
  intros Hdb. unfold add_entry, bind, connect, insert_row.
  rewrite Hdb. cbv beta iota. by rewrite Hdb.
Qed.

Lemma get_entries_run (w : World) :
  db_available w = true →
  get_entries w = (Returned (as_tuple <$> entries w), w).
Proof. intros Hdb. unfold get_entries, bind, connect. by rewrite Hdb. Qed.

Lemma get_category_entries_run (category : str) (w : World) :
  db_available w = true →
  get_category_entries category w =
  (Returned ((λ r, (row_username r, row_text r)) <$>
             filter (λ r, row_category r = category) (entries w)), w).
Proof. intros Hdb. unfold get_category_entries, bind, connect. by rewrite Hdb. Qed.

(** X1.  What [add_entry] writes, [get_entries] reads back: after an
    insert the full scan returns the earlier tuples, in their order,
    followed by the tuple of the new row, and a scan does not change
    the table. *)
Theorem get_entries_reads_back_add_entry
    (uid : Z) (username category text : str) (w : World) :
  db_available w = true →
  ∃ before w',
    get_entries w = (Returned before, w) ∧
    add_entry uid username category text w = (Returned tt, w') ∧
    get_entries w' = (Returned (before ++ [(category, username, text)]), w') ∧
    length (entries w') = S (length (entries w)).
Proof.
  intros Hdb. eexists _, _. split; [by apply get_entries_run |].
  split; [by apply add_entry_run |].
  rewrite get_entries_run by done. cbn [entries].
  split; [by rewrite fmap_app | rewrite length_app; cbn [length]; lia].
Qed.

(** X2.  The filtered scan after an insert: for the category of the new
    row it returns what it returned before followed by the new
    (username, text); for every other category it returns what it
    returned before. *)
Theorem get_category_entries_after_add_entry
    (uid : Z) (username category text other : str) (w : World) :
  db_available w = true →
  ∃ before w',
    get_category_entries other w = (Returned before, w) ∧
    add_entry uid username category text w = (Returned tt, w') ∧
    get_category_entries other w' =
      (Returned (before ++
                 if decide (category = other) then [(username, text)] else []),
       w').
Proof.
  intros Hdb. eexists _, _. split; [by apply get_category_entries_run |].
  split; [by apply add_entry_run |].
  rewrite get_category_entries_run by done. cbn [entries].
  rewrite filter_app, fmap_app. do 2 f_equal.
  rewrite filter_cons, filter_nil. cbn [row_category].
  by destruct (decide (category = other)).
Qed.


Lemma database_functions_raise_when_unreachable
    (uid : Z) (username category text : str) (w : World) :
  db_available w = false →
  add_entry uid username category text w = (Raised OperationalError, w) ∧
  get_entries w = (Raised OperationalError, w) ∧
  get_category_entries category w = (Raised OperationalError, w).
Proof.
  intros Hdb.
  unfold add_entry, get_entries, get_category_entries, bind, connect.
  by rewrite Hdb.
Qed.

(** ** One update *)

Lemma sent_nil (w : World) : sent w [] = w.
Proof. destruct w. unfold sent. cbn. by rewrite app_nil_r. Qed.

Local Ltac frame_solved :=
  split; [try reflexivity | split; [reflexivity | eauto 10]].

Lemma view_entries_frame (ADMIN_ID : Z) (u : Sender) (w : World) :
  ∃ r out,
    view_entries ADMIN_ID u w = (r, sent w out) ∧
    notifications out = [] ∧
    (out = [] ∨ ∃ body parse_mode, out = [ReplyText (chat_id u) body parse_mode]).
Proof.
  destruct (decide (user_id u = ADMIN_ID)) as [Ha|Hne].
  - destruct (db_available w) eqn:Hdb.
    + rewrite view_entries_fetch by done.
      destruct (entries w) as [|r rows]; [eexists _, [_]; frame_solved |].
      destruct (group _ cats0) as [cats|e].
      * eexists _, [_]. frame_solved.
      * exists (Raised e), []. rewrite sent_nil. frame_solved.
    + rewrite view_entries_db_down by done.
      exists (Raised OperationalError), []. rewrite sent_nil. frame_solved.
  - rewrite view_entries_denied by done. eexists _, [_]. frame_solved.
Qed.

Lemma dispatch_shape (ADMIN_ID : Z) (upd : Update) (w : World) :
  ∃ r new out,
    dispatch ADMIN_ID upd w =
      (r, mkWorld
            (match upd with
             | UCallback u d => <[user_id u := d]> (user_state w)
             | _ => user_state w
             end)
            (entries w ++ new) (db_available w) (outbox w ++ out)) ∧
    notifications out = note_for ADMIN_ID <$> new ∧
    (new = [] ∨
     ∃ u t c, upd = UText u t ∧ db_available w = true ∧
       user_state w !! user_id u = Some c ∧
       new = [mkRow (next_id (entries w)) (user_id u) (first_name u) c
                    (strip t)]).
Proof.
  destruct upd as [u|u|u d|u t|]; cbn [dispatch].
  - eexists (Returned tt), [], [_]. rewrite app_nil_r. frame_solved.
  - destruct (view_entries_frame ADMIN_ID u w) as (r & out & -> & Hn & _).
    exists r, [], out. rewrite app_nil_r. split; [done |]. split; [done | eauto].
  - rewrite choose_category_run. eexists (Returned tt), [], [_; _].
    rewrite app_nil_r. frame_solved.
  - destruct (user_state w !! user_id u) as [c|] eqn:Hsel.
    + destruct (db_available w) eqn:Hdb.
      * rewrite (handle_message_stored _ _ _ c) by done.
        eexists (Returned tt), [_], [_; _]. rewrite Hdb. frame_solved.
      * rewrite (handle_message_db_down _ _ _ c) by done.
        exists (Raised OperationalError), [], []. rewrite !app_nil_r, <- Hdb.
        split; [by destruct w |]. split; [done | eauto].
    + rewrite handle_message_no_selection by done.
      eexists (Returned tt), [], [_]. rewrite app_nil_r. frame_solved.
  - exists (Returned tt), [], []. rewrite !app_nil_r.
    split; [by destruct w |]. split; [done | eauto].
Qed.

Lemma process_shape (ADMIN_ID : Z) (w : World) (db_ok : bool) (upd : Update) :
  ∃ new out,
    entries (process ADMIN_ID w (db_ok, upd)) = entries w ++ new ∧
    outbox (process ADMIN_ID w (db_ok, upd)) = outbox w ++ out ∧
    notifications out = note_for ADMIN_ID <$> new ∧
    user_state (process ADMIN_ID w (db_ok, upd)) =
      match upd with
      | UCallback u d => <[user_id u := d]> (user_state w)
      | _ => user_state w
      end ∧
    (new = [] ∨
     ∃ u t c, upd = UText u t ∧ db_ok = true ∧
       user_state w !! user_id u = Some c ∧
       new = [mkRow (next_id (entries w)) (user_id u) (first_name u) c
                    (strip t)]).
Proof.
  unfold process. cbn [fst snd].
  destruct (dispatch_shape ADMIN_ID upd (with_db db_ok w))
    as (r & new & out & -> & Hn & Hnew).
  exists new, out. cbn [snd entries outbox user_state with_db] in *.
  by repeat split.
Qed.

(** X4.  What one update can do.  Whatever the update and whether or
    not the database is reachable, processing it keeps every stored row
    and every earlier transport call, and [user_state] changes only for
    a callback query, at the key of its sender.  At most one row is
    added, and only by a text from a user with a selection while the
    database is reachable; the [send_message] calls made are exactly
    the notifications of the rows added. *)
Theorem one_update_frame (ADMIN_ID : Z) (w : World) (db_ok : bool) (upd : Update) :
  ∃ new out,
    entries (process ADMIN_ID w (db_ok, upd)) = entries w ++ new ∧
    outbox (process ADMIN_ID w (db_ok, upd)) = outbox w ++ out ∧
    notifications out = note_for ADMIN_ID <$> new ∧
    user_state (process ADMIN_ID w (db_ok, upd)) =
      match upd with
      | UCallback u d => <[user_id u := d]> (user_state w)
      | _ => user_state w
      end ∧
    (length new ≤ 1)%nat ∧
    (new = [] ∨
     ∃ u t c, upd = UText u t ∧ db_ok = true ∧
       user_state w !! user_id u = Some c ∧
       new = [mkRow (next_id (entries w)) (user_id u) (first_name u) c
                    (strip t)]).
Proof.
  destruct (process_shape ADMIN_ID w db_ok upd)
    as (new & out & He & Ho & Hn & Hu & Hnew).
  exists new, out. repeat (split; [done |]). split; [| done].
  destruct Hnew as [-> | (u & t & c & _ & _ & _ & ->)]; cbn [length]; lia.
Qed.

(** ** Runs of updates *)

Lemma run_cons (ADMIN_ID : Z) (ev : bool * Update) (evs : list (bool * Update))
    (w : World) :
  run ADMIN_ID (ev :: evs) w = run ADMIN_ID evs (process ADMIN_ID w ev).
Proof. reflexivity. Qed.

Lemma run_snoc (ADMIN_ID : Z) (ev : bool * Update) (evs : list (bool * Update))
    (w : World) :
  run ADMIN_ID (evs ++ [ev]) w = process ADMIN_ID (run ADMIN_ID evs w) ev.
Proof. unfold run. by rewrite foldl_app. Qed.

Lemma notifications_app (out1 out2 : list Sent) :
  notifications (out1 ++ out2) = notifications out1 ++ notifications out2.
Proof. apply filter_app. Qed.

Lemma run_shape (ADMIN_ID : Z) (evs : list (bool * Update)) (w : World) :
  ∃ new out,
    entries (run ADMIN_ID evs w) = entries w ++ new ∧
    outbox (run ADMIN_ID evs w) = outbox w ++ out ∧
    notifications out = note_for ADMIN_ID <$> new.
Proof.
  revert w. induction evs as [|[db upd] evs IH]; intros w.
  - exists [], []. by rewrite !app_nil_r.
  - rewrite run_cons.
    destruct (process_shape ADMIN_ID w db upd) as (n1 & o1 & He1 & Ho1 & Hn1 & _).
    destruct (IH (process ADMIN_ID w (db, upd))) as (n2 & o2 & He2 & Ho2 & Hn2).
    exists (n1 ++ n2), (o1 ++ o2).
    rewrite He2, He1, Ho2, Ho1, <- !app_assoc.
    split; [done |]. split; [done |].
    by rewrite notifications_app, fmap_app, Hn1, Hn2.
Qed.

(** X5.  Over any run of updates, with the database coming and going,
    the table only grows at its end (no stored row is changed, removed
    or reordered), the transport calls only grow at their end, and the
    [send_message] calls made during the run are, in order, exactly one
    notification to the administrator per row added, carrying that
    row's category, text and username. *)
Theorem run_appends_rows_and_notifies_each
    (ADMIN_ID : Z) (evs : list (bool * Update)) (w : World) :
  ∃ new out,
    entries (run ADMIN_ID evs w) = entries w ++ new ∧
    outbox (run ADMIN_ID evs w) = outbox w ++ out ∧
    notifications out =
      (λ r, SendMessage ADMIN_ID
              (admin_note (row_category r) (row_text r) (row_username r))
              Markdown) <$> new ∧
    length (notifications (outbox (run ADMIN_ID evs w))) =
      (length (notifications (outbox w)) + length new)%nat.
Proof.
  destruct (run_shape ADMIN_ID evs w) as (new & out & He & Ho & Hn).
  exists new, out. repeat (split; [done |]).
  by rewrite Ho, notifications_app, length_app, Hn, length_fmap.
Qed.

Lemma process_user_state (ADMIN_ID : Z) (w : World) (ev : bool * Update) (uid : Z) :
  user_state (process ADMIN_ID w ev) !! uid =
  match ev.2 with
  | UCallback u d =>
      if decide (user_id u = uid) then Some d else user_state w !! uid
  | _ => user_state w !! uid
  end.
Proof.
  destruct ev as [db upd].
  destruct (process_shape ADMIN_ID w db upd) as (_ & _ & _ & _ & _ & -> & _).
  destruct upd as [u|u|u d|u t|]; try done. cbn [snd].
  rewrite lookup_insert. by destruct (decide (user_id u = uid)).
Qed.

Lemma run_user_state (ADMIN_ID : Z) (evs : list (bool * Update)) (w : World)
    (uid : Z) :
  user_state (run ADMIN_ID evs w) !! uid =
  last_choice uid evs (user_state w !! uid).
Proof.
  revert w. induction evs as [|ev evs IH]; intros w; [done |].
  rewrite run_cons, IH, process_user_state. unfold last_choice. cbn [foldl].
  by destruct ev.2.
Qed.

(** X6.  After any run, the selection of a user is the token of that
    user's most recent callback query, and the selection held before
    the run when there was none: texts, commands, outages and the
    callbacks of other users do not change it, and nothing removes
    it. *)
Theorem selection_is_latest_own_choice
    (ADMIN_ID : Z) (evs : list (bool * Update)) (w : World) (uid : Z) :
  user_state (run ADMIN_ID evs w) !! uid =
    last_choice uid evs (user_state w !! uid) ∧
  (Forall (λ ev, match ev.2 with
                 | UCallback u _ => user_id u ≠ uid
                 | _ => True
                 end) evs →
   user_state (run ADMIN_ID evs w) !! uid = user_state w !! uid) ∧
  (is_Some (user_state w !! uid) →
   is_Some (user_state (run ADMIN_ID evs w) !! uid)).
Proof.
  split; [apply run_user_state |]. rewrite run_user_state.
  generalize (user_state w !! uid). unfold last_choice.
  induction evs as [|[db upd] evs IH]; intros init; [done |].
  cbn [foldl snd]. split.
  - intros Hothers. apply Forall_cons in Hothers as [Hev Hothers].
    cbn [snd] in Hev. rewrite (proj1 (IH _) Hothers).
    destruct upd as [u|u|u d|u t|]; try done.
    by destruct (decide (user_id u = uid)).
  - intros Hsome. apply IH.
    destruct upd as [u|u|u d|u t|]; try done.
    by destruct (decide (user_id u = uid)).
Qed.

(** X7.  A text is filed under the sender's latest choice, whatever
    happened in between: if the token of [u]'s most recent callback
    query in a run is [c], a text from [u] arriving next, with the
    database reachable, adds exactly the row with [u]'s id and first
    name, category [c] and the stripped text, and leaves the selection
    in place. *)
Theorem text_is_filed_under_latest_choice
    (ADMIN_ID : Z) (evs : list (bool * Update)) (w : World)
    (u : Sender) (c message_text : str) :
  last_choice (user_id u) evs (user_state w !! user_id u) = Some c →
  let w1 := run ADMIN_ID evs w in
  let w2 := run ADMIN_ID (evs ++ [(true, UText u message_text)]) w in
  entries w2 =
    entries w1 ++
    [mkRow (next_id (entries w1)) (user_id u) (first_name u) c
           (strip message_text)] ∧
  user_state w2 = user_state w1.
Proof.
  intros Hlast w1 w2. subst w1 w2. rewrite run_snoc.
  rewrite <- run_user_state with (ADMIN_ID := ADMIN_ID) in Hlast.
  unfold process. cbn [fst snd dispatch].
  rewrite (handle_message_stored _ _ _ c) by done. done.
Qed.

(** ** Invariants of runs *)

Lemma process_within_registry (ADMIN_ID : Z) (w : World) (ev : bool * Update) :
  within_registry w →
  match ev.2 with UCallback _ d => d ∈ registry | _ => True end →
  within_registry (process ADMIN_ID w ev).
Proof.
  intros [Hsel Hrows] Hev. destruct ev as [db upd]. cbn [snd] in Hev.
  destruct (process_shape ADMIN_ID w db upd)
    as (new & out & He & _ & _ & Hu & Hnew).
  split.
  - intros uid c. rewrite Hu. destruct upd as [u|u|u d|u t|]; try apply Hsel.
    rewrite lookup_insert. destruct (decide (user_id u = uid)).
    + by intros [= <-].
    + apply Hsel.
  - rewrite He. apply Forall_app. split; [done |].
    destruct Hnew as [-> | (u & t & c & _ & _ & Hc & ->)]; [constructor |].
    apply Forall_singleton. exact (Hsel _ _ Hc).
Qed.

Lemma run_within_registry (ADMIN_ID : Z) (evs : list (bool * Update)) (w : World) :
  within_registry w →
  Forall (λ ev, match ev.2 with UCallback _ d => d ∈ registry | _ => True end) evs →
  within_registry (run ADMIN_ID evs w).
Proof.
  revert w. induction evs as [|ev evs IH]; intros w Hw Hevs; [done |].
  apply Forall_cons in Hevs as [Hev Hevs]. rewrite run_cons.
  by apply IH, Hevs; apply process_within_registry.
Qed.

(** X8.  As long as every callback query carries the token of a button
    of the keyboard that [start] sends, the report cannot fail on a
    category: starting from selections and rows within the four
    categories, after any run every selection and every stored row is
    still within them, and a [/view] from the administrator with the
    database reachable returns with one reply. *)
Theorem keyboard_tokens_keep_report_working
    (ADMIN_ID : Z) (evs : list (bool * Update)) (w : World) (a : Sender) :
  within_registry w →
  buttons_only evs →
  user_id a = ADMIN_ID →
  let w' := with_db true (run ADMIN_ID evs w) in
  within_registry (run ADMIN_ID evs w) ∧
  ∃ body parse_mode,
    view_entries ADMIN_ID a w' =
    (Returned tt, sent w' [ReplyText (chat_id a) body parse_mode]).
Proof.
  intros Hw Hevs Ha w'.
  assert (Hin : within_registry (run ADMIN_ID evs w)).
  { apply run_within_registry; [done |]. unfold buttons_only in Hevs.
    by rewrite registry_keyboard in Hevs. }
  split; [done |]. subst w'. rewrite view_entries_fetch by done.
  cbn [entries with_db].
  destruct (entries (run ADMIN_ID evs w)) as [|r rows] eqn:Hrows; [by eauto |].
  rewrite group_rows_known by (rewrite <- Hrows; apply Hin). by eauto.
Qed.

(** X9.  A stored row whose category is outside the four stays in the
    way for good: rows are never removed, so after any further run
    every [/view] from the administrator raises, whether the database
    is reachable or not, and sends no reply. *)
Theorem unknown_category_disables_report
    (ADMIN_ID : Z) (evs : list (bool * Update)) (w : World) (r : Row)
    (a : Sender) (db_ok : bool) :
  r ∈ entries w →
  row_category r ∉ registry →
  user_id a = ADMIN_ID →
  let w' := with_db db_ok (run ADMIN_ID evs w) in
  ∃ e, view_entries ADMIN_ID a w' = (Raised e, w').
Proof.
  intros Hr Hcat Ha w'.
  assert (Hin : r ∈ entries w').
  { subst w'. cbn [entries with_db].
    destruct (run_shape ADMIN_ID evs w) as (new & _ & -> & _).
    apply elem_of_app. by left. }
  destruct db_ok.
  - rewrite view_entries_fetch by done.
    destruct (entries w') as [|r0 rows] eqn:Hrows;
      [by apply elem_of_nil in Hin |].
    destruct (group (as_tuple <$> r0 :: rows) cats0) as [cats|e] eqn:Hg;
      [| by eauto].
    apply group_returned_known, Forall_fmap in Hg.
    destruct Hcat. by apply (proj1 (Forall_forall _ _) Hg r).
  - exists OperationalError. by apply view_entries_db_down.
Qed.

Lemma group_raises_at_first_unknown (known rest : list (str * str * str))
    (c u t : str) (cats : list (str * list str)) :
  NoDup cats.*1 →
  Forall (λ r, r.1.1 ∈ cats.*1) known →
  c ∉ cats.*1 →
  group (known ++ (c, u, t) :: rest) cats = Raised (KeyError c).
Proof.
  revert cats. induction known as [|[[c' u'] t'] known IH]; intros cats Hnd Hk Hc.
  - cbn [app group].
    by rewrite (proj2 (dict_append_None c (u ++ lit ": " ++ t) cats) Hc).
  - apply Forall_cons in Hk as [Hc' Hk]. cbn [fst] in Hc'.
    cbn [app group]. rewrite dict_append_Some by done.
    apply IH; by rewrite append_at_keys.
Qed.

(** X10.  Which error the report gives: when the table holds a row
    whose category is outside the four, the administrator's [/view]
    raises [KeyError] for the category of the first such row in table
    order, sends nothing and changes nothing, however many good rows
    come before or after it. *)
Theorem view_raises_for_first_unknown_category
    (ADMIN_ID : Z) (a : Sender) (w : World) (known rest : list Row) (r : Row) :
  user_id a = ADMIN_ID →
  db_available w = true →
  entries w = known ++ r :: rest →
  Forall (λ k, row_category k ∈ registry) known →
  row_category r ∉ registry →
  view_entries ADMIN_ID a w = (Raised (KeyError (row_category r)), w).
Proof.
  intros Ha Hdb Hrows Hknown Hr. rewrite view_entries_fetch by done.
  rewrite Hrows. destruct (known ++ r :: rest) as [|r0 rows] eqn:Hsplit;
    [by destruct known |].
  rewrite <- Hsplit, fmap_app, fmap_cons. unfold as_tuple at 2.
  rewrite group_raises_at_first_unknown; [done | apply registry_NoDup | | done].
  apply Forall_fmap. eapply Forall_impl; [exact Hknown | by intros k].
Qed.

(** ** Identifiers and stored texts *)

Lemma next_id_above (rows : list Row) :
  0 < next_id rows ∧ Forall (λ r, row_id r < next_id rows) rows.
Proof.
  unfold next_id. induction rows as [|r rows [Hpos IH]]; cbn [foldr].
  - split; [lia | constructor].
  - split; [lia |]. constructor; [lia |].
    eapply Forall_impl; [exact IH |]. intros k Hk. cbn beta in Hk. lia.
Qed.

Lemma ids_increasing_snoc (rows : list Row) (r : Row) :
  ids_increasing rows → row_id r = next_id rows → ids_increasing (rows ++ [r]).
Proof.
  intros Hinc Hid i j ri rj Hi Hj Hij.
  assert (Hjlen : (j < length (rows ++ [r]))%nat) by (by eapply lookup_lt_Some).
  rewrite length_app in Hjlen. cbn [length] in Hjlen.
  rewrite lookup_app_l in Hi by lia.
  destruct (decide (j < length rows)%nat) as [Hlt|Hge].
  - rewrite lookup_app_l in Hj by done. by eapply Hinc.
  - rewrite lookup_app_r in Hj by lia.
    replace (j - length rows)%nat with 0%nat in Hj by lia.
    injection Hj as <-. rewrite Hid.
    apply list_elem_of_lookup_2 in Hi.
    by apply (proj1 (Forall_forall _ _) (proj2 (next_id_above rows))).
Qed.

Lemma ids_increasing_NoDup (rows : list Row) :
  ids_increasing rows → NoDup (row_id <$> rows).
Proof.
  intros Hinc. apply NoDup_alt. intros i j x Hi Hj.
  rewrite list_lookup_fmap in Hi, Hj.
  destruct (rows !! i) as [ri|] eqn:Hri; [| done].
  destruct (rows !! j) as [rj|] eqn:Hrj; [| done].
  injection Hi as <-. injection Hj as Heq.
  destruct (Nat.lt_trichotomy i j) as [Hlt | [-> | Hgt]]; [| done |].
  - pose proof (Hinc _ _ _ _ Hri Hrj Hlt). lia.
  - pose proof (Hinc _ _ _ _ Hrj Hri Hgt). lia.
Qed.

(** A property of the table that every insert of a handler keeps is
    kept by every run. *)
Lemma run_table_invariant (ADMIN_ID : Z) (P : list Row → Prop) :
  (∀ rows uid name c t,
     P rows → P (rows ++ [mkRow (next_id rows) uid name c (strip t)])) →
  ∀ evs w, P (entries w) → P (entries (run ADMIN_ID evs w)).
Proof.
  intros Hstep evs. induction evs as [|[db upd] evs IH]; intros w Hw; [done |].
  rewrite run_cons. apply IH.
  destruct (process_shape ADMIN_ID w db upd) as (new & _ & -> & _ & _ & _ & Hnew).
  destruct Hnew as [-> | (u & t & c & _ & _ & _ & ->)].
  - by rewrite app_nil_r.
  - by apply Hstep.
Qed.

(** X11.  Row identifiers stay in step with the table: if they grow
    along the table before a run, then after the run they still do, so
    every row added has an identifier larger than all earlier ones and
    no two rows share one. *)
Theorem run_keeps_ids_increasing
    (ADMIN_ID : Z) (evs : list (bool * Update)) (w : World) :
  ids_increasing (entries w) →
  ids_increasing (entries (run ADMIN_ID evs w)) ∧
  NoDup (row_id <$> entries (run ADMIN_ID evs w)).
Proof.
  intros Hinc.
  assert (H : ids_increasing (entries (run ADMIN_ID evs w))).
  { revert evs w Hinc. apply run_table_invariant.
    intros rows uid name c t Hrows. by apply ids_increasing_snoc. }
  split; [done | by apply ids_increasing_NoDup].
Qed.

Lemma lstrip_fixed (s : str) :
  (∀ c r, s = c :: r → isspace c = false) → lstrip s = s.
Proof.
  destruct s as [|c r]; [done |]. intros Hc. cbn [lstrip].
  by rewrite (Hc c r eq_refl).
Qed.

Lemma rstrip_fixed (s : str) :
  (∀ c r, s = r ++ [c] → isspace c = false) → rstrip s = s.
Proof.
  intros Hc. unfold rstrip. rewrite lstrip_fixed; [apply rev_involutive |].
  intros c r Hrev. apply (Hc c (rev r)).
  by rewrite <- (rev_involutive s), Hrev.
Qed.

Lemma strip_idempotent (s : str) : strip (strip s) = strip s.
Proof.
  unfold strip at 1. rewrite lstrip_fixed by apply strip_first.
  apply rstrip_fixed, strip_last.
Qed.

(** X12.  Stored texts carry no outer white space, and stripping is
    done once and for all: stripping a stripped text changes nothing,
    so if every text in the table is its own stripped form before a
    run, the same holds after it. *)
Theorem run_keeps_texts_stripped
    (ADMIN_ID : Z) (evs : list (bool * Update)) (w : World) :
  Forall (λ r, strip (row_text r) = row_text r) (entries w) →
  Forall (λ r, strip (row_text r) = row_text r)
         (entries (run ADMIN_ID evs w)) ∧
  ∀ s, strip (strip s) = strip s.
Proof.
  intros Hw. split; [| apply strip_idempotent].
  revert evs w Hw.
  apply (run_table_invariant ADMIN_ID
           (Forall (λ r, strip (row_text r) = row_text r))).
  intros rows uid name c t Hrows. apply Forall_app. split; [done |].
  apply Forall_singleton. apply strip_idempotent.
Qed.

(** ** The report *)

Lemma sum_indicator_absent (c : str) (l : list str) :
  c ∉ l → sum_list ((λ k, if decide (c = k) then 1 else 0)%nat <$> l) = 0%nat.
Proof.
  induction l as [|a l IH]; [done |].
  rewrite not_elem_of_cons. intros [Hne Hl]. csimpl.
  destruct (decide (c = a)); [done |]. by rewrite IH.
Qed.

Lemma sum_indicator_present (c : str) (l : list str) :
  NoDup l → c ∈ l →
  sum_list ((λ k, if decide (c = k) then 1 else 0)%nat <$> l) = 1%nat.
Proof.
  induction l as [|a l IH]; [by intros _ ?%elem_of_nil |].
  rewrite NoDup_cons. intros [Ha Hnd] Hc. csimpl.
  destruct (decide (c = a)) as [->|Hne].
  - by rewrite sum_indicator_absent.
  - apply elem_of_cons in Hc as [? | Hc]; [done |]. by rewrite IH.
Qed.

Lemma sum_list_fmap_plus {A} (f g : A → nat) (l : list A) :
  sum_list ((λ k, f k + g k)%nat <$> l) =
  (sum_list (f <$> l) + sum_list (g <$> l))%nat.
Proof.
  induction l as [|a l IH]; [done |]. csimpl. rewrite IH. unfold id. lia.
Qed.

Lemma lines_of_cons (k : str) (r : Row) (rows : list Row) :
  length (lines_of k (r :: rows)) =
  ((if decide (row_category r = k) then 1 else 0) + length (lines_of k rows))%nat.
Proof.
  unfold lines_of. rewrite filter_cons.
  by destruct (decide (row_category r = k)).
Qed.

Lemma lines_partition (rows : list Row) :
  Forall (λ r, row_category r ∈ registry) rows →
  sum_list ((λ k, length (lines_of k rows)) <$> registry) = length rows.
Proof.
  induction 1 as [|r rows Hr _ IH].
  - by vm_compute.
  - rewrite (list_fmap_ext _
               (λ k, (if decide (row_category r = k) then 1 else 0) +
                     length (lines_of k rows))%nat registry)
      by (intros; apply lines_of_cons).
    rewrite sum_list_fmap_plus, IH, sum_indicator_present;
      [done | apply registry_NoDup | done].
Qed.

(** X13.  The grouping loop of [view_entries] is a partition of the
    table: whenever the administrator's [/view] over a table that is
    not empty returns, the dictionary the loop has built, which is the
    one the reply renders, has the four keys in their order and its
    four lists together hold as many lines as the table has rows, so
    the counts in the section headers add up to the number of rows. *)
Theorem section_counts_add_up (ADMIN_ID : Z) (a : Sender) (w : World) :
  user_id a = ADMIN_ID →
  db_available w = true →
  entries w ≠ [] →
  (view_entries ADMIN_ID a w).1 = Returned tt →
  ∃ cats,
    group (as_tuple <$> entries w) cats0 = Returned cats ∧
    view_entries ADMIN_ID a w =
      (Returned tt, sent w [ReplyText (chat_id a) (render cats) Markdown]) ∧
    cats.*1 = registry ∧
    sum_list (length <$> cats.*2) = length (entries w).
Proof.
  intros Ha Hdb Hne Hret. rewrite view_entries_fetch in Hret |- * by done.
  destruct (entries w) as [|r rows] eqn:Hrows; [done |].
  destruct (group (as_tuple <$> r :: rows) cats0) as [cats|e] eqn:Hg;
    [| discriminate Hret].
  exists cats. split; [done |]. split; [done |].
  assert (Hall : Forall (λ k, row_category k ∈ registry) (r :: rows)).
  { apply group_returned_known, Forall_fmap in Hg.
    eapply Forall_impl; [exact Hg | by intros k]. }
  rewrite (group_rows_known _ Hall) in Hg. injection Hg as <-.
  split; [reflexivity |]. by rewrite <- (lines_partition _ Hall).
Qed.

Lemma join_snoc (sep : str) (parts : list str) (p : str) :
  ∃ pre, join sep (parts ++ [p]) = pre ++ p.
Proof.
  induction parts as [|a parts [pre IH]]; [by exists [] |].
  exists (a ++ sep ++ pre). cbn [app join].
  destruct (parts ++ [p]) as [|b rest] eqn:Hparts; [by destruct parts |].
  by rewrite IH, <- !app_assoc.
Qed.

Lemma last5_snoc {A} (xs : list A) (x : A) :
  ∃ ys, last5 (xs ++ [x]) = ys ++ [x].
Proof.
  unfold last5. rewrite length_app. cbn [length].
  exists (drop (length xs + 1 - 5) xs). apply drop_app_le. lia.
Qed.

Lemma section_of_snoc (k : str) (vs : list str) (v : str) :
  ∃ pre, section_of k (vs ++ [v]) = pre ++ (bullet v ++ [LF]) ++ [LF].
Proof.
  unfold section_of.
  destruct (vs ++ [v]) as [|v0 rest] eqn:Hvs; [by destruct vs |].
  rewrite <- Hvs. destruct (last5_snoc vs v) as [ys ->].
  rewrite map_app. cbn [map].
  destruct (join_snoc [LF] (map bullet ys) (bullet v)) as [pre ->].
  exists (lit "*" ++ capitalize k ++ lit "* (" ++
          str_of_nat (length (vs ++ [v])) ++ lit " entries):" ++ [LF] ++ pre).
  by rewrite <- !app_assoc.
Qed.

Lemma report_shows_newest (rows : list Row) (r : Row) :
  row_category r ∈ registry →
  contains (report_of (rows ++ [r])) (bullet (entry_line r) ++ [LF]) = true.
Proof.
  intros Hc. destruct (list_elem_of_split _ _ Hc) as (before & after & Hsplit).
  unfold report_of. rewrite Hsplit at 1.
  rewrite fmap_app, fmap_cons, concat_app, concat_cons.
  assert (Hl : lines_of (row_category r) (rows ++ [r]) =
               lines_of (row_category r) rows ++ [entry_line r]).
  { unfold lines_of. rewrite filter_app, fmap_app, filter_cons, filter_nil.
    by destruct (decide (row_category r = row_category r)). }
  rewrite Hl. destruct (section_of_snoc (row_category r)
                          (lines_of (row_category r) rows) (entry_line r))
    as [pre ->].
  set (x := bullet (entry_line r) ++ [LF]).
  match goal with
  | |- contains (?h ++ ?b ++ (?p ++ x ++ ?l) ++ ?a) x = true =>
      replace (h ++ b ++ (p ++ x ++ l) ++ a)
        with ((h ++ b ++ p) ++ x ++ (l ++ a)) by (by rewrite <- !app_assoc)
  end.
  apply contains_mid.
Qed.

(** X14.  An accepted entry is on the next report: once a text from a
    user with a selection has been stored (selections and rows within
    the four categories), a [/view] from the administrator returns a
    report that contains the line for that entry (the bullet, a
    space, the first name, a colon and a space, the stripped text, a
    line feed), however many rows its category already had. *)
Theorem accepted_text_shows_in_next_report
    (ADMIN_ID : Z) (u a : Sender) (c message_text : str) (w : World) :
  within_registry w →
  user_state w !! user_id u = Some c →
  db_available w = true →
  user_id a = ADMIN_ID →
  let w1 := (handle_message ADMIN_ID u message_text w).2 in
  ∃ body,
    view_entries ADMIN_ID a w1 =
      (Returned tt, sent w1 [ReplyText (chat_id a) body Markdown]) ∧
    contains body
      ([8226%N] ++ lit " " ++ first_name u ++ lit ": " ++
       strip message_text ++ [LF]) = true.
Proof.
  intros [Hsel Hrows] Hc Hdb Ha w1. subst w1.
  rewrite (handle_message_stored _ _ _ c) by done. cbn [snd].
  eexists. split.
  - apply view_entries_report; cbn [entries db_available]; try done.
    + by destruct (entries w).
    + apply Forall_app. split; [done |]. apply Forall_singleton.
      exact (Hsel _ _ Hc).
  - cbn [entries].
    replace ([8226%N] ++ lit " " ++ first_name u ++ lit ": " ++
             strip message_text ++ [LF])
      with (bullet (entry_line
                      (mkRow (next_id (entries w)) (user_id u) (first_name u) c
                             (strip message_text))) ++ [LF])
      by (unfold bullet, entry_line; cbn [row_username row_text];
          by rewrite <- !app_assoc).
    apply report_shows_newest. exact (Hsel _ _ Hc).
Qed.

(** ** Start-up *)

(** X15.  A restart keeps the rows and forgets the selections.
    [init_db] creates the table only if it is missing, so starting
    again over the table a run has left gives a process with exactly
    those rows; its [user_state] is empty, so whatever a user had
    chosen before, a first text is answered with the request to choose
    and is not stored.  On a first start the table is empty, and when
    the database cannot be opened start-up raises. *)
Theorem restart_keeps_rows_forgets_selections
    (ADMIN_ID : Z) (evs : list (bool * Update)) (w : World)
    (u : Sender) (message_text : str) (table : option (list Row)) :
  let rows := entries (run ADMIN_ID evs w) in
  ∃ w',
    run_bot true (Some rows) = Returned w' ∧
    entries w' = rows ∧
    handle_message ADMIN_ID u message_text w' =
      (Returned tt, sent w' [ReplyText (chat_id u) choose_first None]) ∧
    run_bot true None = Returned (fresh [] true) ∧
    run_bot false table = Raised OperationalError.
Proof.
  intros rows. exists (fresh rows true). split; [done |]. split; [done |].
  split; [| done]. apply handle_message_no_selection.
  unfold fresh. cbn [user_state]. apply lookup_empty.
Qed.

(** X16.  Which environments the module starts with.  Start-up
    succeeds exactly when [BOT_TOKEN] is set and non-empty and
    [ADMIN_ID] is set, non-empty and accepted by [int]; the handlers
    then run with that token and that number ([0] included).  A value
    of [ADMIN_ID] that [int] rejects fails with [ValueError] before any
    check, even when [BOT_TOKEN] is missing; otherwise a missing or
    empty [BOT_TOKEN] is reported first, and a missing or empty
    [ADMIN_ID] only when the token is there. *)
Theorem load_config_outcomes
    (int_of_str : str → option Z) (env : gmap string str) :
  (∀ (token : str) (n : Z),
     load_config int_of_str env = inr (token, n) ↔
     env !! "BOT_TOKEN" = Some token ∧ token ≠ [] ∧
     ∃ a : str, env !! "ADMIN_ID" = Some a ∧ a ≠ [] ∧ int_of_str a = Some n) ∧
  (∀ a : str, env !! "ADMIN_ID" = Some a → a ≠ [] → int_of_str a = None →
        load_config int_of_str env = inl ValueError) ∧
  ((∀ a : str, env !! "ADMIN_ID" = Some a → a ≠ [] → is_Some (int_of_str a)) →
   truthy (env !! "BOT_TOKEN") = false →
   load_config int_of_str env = inl (RuntimeError token_not_set)) ∧
  (truthy (env !! "BOT_TOKEN") = true →
   truthy (env !! "ADMIN_ID") = false →
   load_config int_of_str env = inl (RuntimeError admin_not_set)).
Proof.
  unfold load_config, getenv. split; [| split; [| split]].
  - intros token n. split.
    + destruct (env !! "ADMIN_ID") as [[|a0 a]|] eqn:Ha;
        destruct (env !! "BOT_TOKEN") as [[|t0 t]|] eqn:Ht;
        cbn [truthy negb default from_option id];
        try destruct (int_of_str (a0 :: a)) as [n0|] eqn:Hint;
        intros Heq; try discriminate Heq.
      injection Heq as <- <-. split; [done |]. split; [done |].
      exists (a0 :: a). by repeat split.
    + intros (Ht & Hne & a & Ha & Hane & Hint). rewrite Ha, Ht.
      destruct a as [|a0 a]; [done |]. destruct token as [|t0 t]; [done |].
      cbn [truthy negb default from_option id]. by rewrite Hint.
  - intros a Ha Hane Hint. rewrite Ha. destruct a as [|a0 a]; [done |].
    cbn [truthy default from_option id]. by rewrite Hint.
  - intros Hint Htok.
    destruct (env !! "ADMIN_ID") as [[|a0 a]|] eqn:Ha;
      cbn [truthy default from_option id]; rewrite ?Htok; try done.
    destruct (Hint (a0 :: a) eq_refl) as [n ->]; [done |].
    by rewrite ?Htok.
  - intros Htok Hadm. by rewrite Hadm, Htok.
Qed.

(** ** Who is written to *)

(** X17.  Where a handler writes: every transport call made while an
    update is processed is a [send_message] to the administrator, an
    [answer] to the user who pressed the button, or a call on the chat
    the update's message is in.  For an update from a group the
    replies, the report included, therefore go to the group, not to
    the sender alone. *)
Theorem replies_go_to_sender_or_admin
    (ADMIN_ID : Z) (w : World) (db_ok : bool) (upd : Update) :
  ∃ out,
    outbox (process ADMIN_ID w (db_ok, upd)) = outbox w ++ out ∧
    Forall (λ s, match s with
                 | SendMessage chat _ _ => chat = ADMIN_ID
                 | Answer to => Some to = user_id <$> origin upd
                 | ReplyText to _ _ => Some to = chat_id <$> origin upd
                 | ReplyKeyboard to _ _ => Some to = chat_id <$> origin upd
                 | EditMessageText to _ _ => Some to = chat_id <$> origin upd
                 end) out.
Proof.
  unfold process. cbn [fst snd]. set (w0 := with_db db_ok w).
  change (outbox w) with (outbox w0). clearbody w0.
  destruct upd as [u|u|u d|u t|]; cbn [dispatch origin].
  - eexists [_]. split; [done |]. by repeat constructor.
  - destruct (view_entries_frame ADMIN_ID u w0)
      as (r & out & -> & _ & [-> | (body & pm & ->)]).
    + exists []. split; [done | constructor].
    + eexists [_]. split; [done |]. by repeat constructor.
  - rewrite choose_category_run. eexists [_; _]. split; [done |].
    by repeat constructor.
  - destruct (user_state w0 !! user_id u) as [c|] eqn:Hsel.
    + destruct (db_available w0) eqn:Hdb.
      * rewrite (handle_message_stored _ _ _ c) by done.
        eexists [_; _]. split; [done |]. by repeat constructor.
      * rewrite (handle_message_db_down _ _ _ c) by done.
        exists []. split; [by rewrite app_nil_r | constructor].
    + rewrite handle_message_no_selection by done.
      eexists [_]. split; [done |]. by repeat constructor.
  - exists []. split; [by rewrite app_nil_r | constructor].
Qed.

End Interpreter.

(** * The statements on sample data

    A stand-in for the interpreter's case tables.  The samples below
    are ASCII, for which [capitalize] does not consult it. *)
#[global] Instance sample_unicode : Unicode :=
  {| capitalize_unicode := λ s, s |}.

Lemma choose_then_text_stores_and_notifies_witness :
  fruits ∈ registry ∧
  db_available (fresh [] true) = true ∧
  (choose_category ann fruits ;; handle_message 1 ann (lit "hello"))
    (fresh [] true) =
  (Returned tt,
   mkWorld {[ 7 := fruits ]}
     [mkRow 1 7 (lit "Ann") fruits (lit "hello")]
     true
     [Answer 7;
      EditMessageText 7
        (lit "You chose *Fruits*." ++ [LF] ++ lit "Now send me your entry.")
        Markdown;
      ReplyText 7 ([9989%N] ++ lit " Added to *Fruits*!") Markdown;
      SendMessage 1
        ([128236%N] ++ lit " *New entry in Fruits*" ++ [LF; LF] ++
         lit "hello" ++ [LF; LF] ++ lit "From: Ann") Markdown]).
Proof.
  split; [apply list_elem_of_here |]. split; [reflexivity |].
  exact (proj1 (choose_then_text_stores_and_notifies 1 ann fruits (lit "hello")
                  (fresh [] true) (list_elem_of_here _ _) eq_refl)).
Defined.

(** C2 fails as stated: the token [meat] is outside the registry, yet
    choosing it does not fail and does change the selection state. *)
Lemma choose_category_unvalidated :
  (meat ∉ registry) ∧
  ¬ (∃ e, (choose_category ann meat (fresh [] true)).1 = Raised e) ∧
  ¬ (user_state (choose_category ann meat (fresh [] true)).2 =
     user_state (fresh [] true)) ∧
  user_state (choose_category ann meat (fresh [] true)).2 !! 7 = Some meat.
Proof.
  split; [| split; [| split]].
  - intros Hin. apply (bool_decide_pack _) in Hin. by vm_compute in Hin.
  - intros [e He]. by vm_compute in He.
  - intros Heq. apply (f_equal (λ m : gmap Z str, m !! 7)) in Heq.
    by vm_compute in Heq.
  - by vm_compute.
Qed.

Lemma text_without_selection_only_prompts_witness :
  user_state (fresh [] true) !! user_id ann = None ∧
  let r := handle_message 1 ann (lit "hello") (fresh [] true) in
  r.1 = Returned tt ∧
  entries r.2 = entries (fresh [] true) ∧
  user_state r.2 = user_state (fresh [] true) ∧
  outbox r.2 =
    outbox (fresh [] true) ++ [ReplyText (chat_id ann) choose_first None].
Proof.
  split; [reflexivity |].
  exact (text_without_selection_only_prompts 1 ann (lit "hello")
           (fresh [] true) eq_refl).
Defined.

Lemma storage_failure_raises_out_of_handler_witness :
  user_state (chosen false) !! user_id ann = Some fruits ∧
  db_available (chosen false) = false ∧
  handle_message 1 ann (lit "hello") (chosen false) =
  (Raised OperationalError, chosen false).
Proof.
  split; [reflexivity |]. split; [reflexivity |].
  exact (storage_failure_raises_out_of_handler 1 ann fruits (lit "hello")
           (chosen false) eq_refl eq_refl).
Defined.

(** C4 fails as stated: with a selection made and the database down,
    the handler does not return and the user is sent nothing. *)
Lemma storage_failure_not_reported :
  let r := handle_message 1 ann (lit "hello") (chosen false) in
  ¬ (r.1 = Returned tt ∧
     ∃ body parse_mode, ReplyText 7 body parse_mode ∈ outbox r.2) ∧
  r.1 = Raised OperationalError ∧
  outbox r.2 = [].
Proof.
  split; [| split]; [| reflexivity | reflexivity].
  intros [Hret _]. by vm_compute in Hret.
Qed.

Lemma selection_is_sticky_witness :
  db_available (fresh [] true) = true ∧
  let w1 := (choose_category ann fruits (fresh [] true)).2 in
  let r := (handle_message 1 ann (lit "apple") ;;
            handle_message 1 ann (lit "pear")) w1 in
  let row1 := mkRow 1 7 (lit "Ann") fruits (lit "apple") in
  let row2 := mkRow 2 7 (lit "Ann") fruits (lit "pear") in
  r.1 = Returned tt ∧
  entries r.2 = [row1; row2] ∧
  user_state (handle_message 1 ann (lit "apple") w1).2 = user_state w1 ∧
  user_state r.2 = user_state w1 ∧
  user_state r.2 !! 7 = Some fruits.
Proof.
  split; [reflexivity |].
  exact (selection_is_sticky 1 ann fruits (lit "apple") (lit "pear")
           (fresh [] true) eq_refl).
Defined.

Lemma view_by_non_admin_is_refused_witness :
  user_id ann ≠ 1 ∧
  view_entries 1 ann (fresh [mkRow 1 7 (lit "Ann") fruits (lit "apple")] true) =
    (Returned tt,
     sent (fresh [mkRow 1 7 (lit "Ann") fruits (lit "apple")] true)
       [ReplyText 7 not_authorized None]).
Proof.
  assert (Hne : user_id ann ≠ 1) by (by intros [=]).
  split; [exact Hne |].
  exact (proj1 (view_by_non_admin_is_refused 1 ann
           (fresh [mkRow 1 7 (lit "Ann") fruits (lit "apple")] true) Hne)).
Defined.

Lemma text_is_stored_stripped_witness :
  user_state (chosen true) !! user_id ann = Some fruits ∧
  db_available (chosen true) = true ∧
  entries (handle_message 1 ann (lit "   ") (chosen true)).2 =
    [mkRow 1 7 (lit "Ann") fruits []] ∧
  entries (handle_message 1 ann ([LF] ++ lit " ripe  mango ") (chosen true)).2 =
    [mkRow 1 7 (lit "Ann") fruits (lit "ripe  mango")].
Proof.
  split; [reflexivity |]. split; [reflexivity |]. split.
  - exact (proj1 (proj2 (text_is_stored_stripped 1 ann fruits (lit "   ")
                           (chosen true) eq_refl eq_refl))).
  - exact (proj1 (proj2 (text_is_stored_stripped 1 ann fruits
                           ([LF] ++ lit " ripe  mango ")
                           (chosen true) eq_refl eq_refl))).
Defined.

Lemma report_shows_last_five_of_seven_witness :
  user_id boss = 1 ∧
  db_available (fresh seven_fruits true) = true ∧
  Forall (λ r, row_category r ∈ registry) seven_fruits ∧
  length (filter (λ r, row_category r = fruits) seven_fruits) = 7%nat ∧
  ∃ e1 e2 e3 e4 e5 e6 e7 before after,
    filter (λ r, row_category r = fruits) (entries (fresh seven_fruits true)) =
      [e1; e2; e3; e4; e5; e6; e7] ∧
    registry = before ++ fruits :: after ∧
    (fruits, capitalize fruits) ∈
      [ (lit "fruits", lit "Fruits"); (lit "vegetables", lit "Vegetables");
        (lit "drinks", lit "Drinks"); (lit "others", lit "Others") ] ∧
    view_entries 1 boss (fresh seven_fruits true) =
      (Returned tt,
       sent (fresh seven_fruits true)
         [ReplyText (chat_id boss)
            (report_of (entries (fresh seven_fruits true))) Markdown]) ∧
    report_of (entries (fresh seven_fruits true)) =
      overview_header ++
      concat ((λ k, section_of k (lines_of k (entries (fresh seven_fruits true))))
                <$> before) ++
      (lit "*" ++ capitalize fruits ++ lit "* (7 entries):" ++ [LF] ++
       [8226%N] ++ lit " " ++ row_username e3 ++ lit ": " ++ row_text e3 ++ [LF] ++
       [8226%N] ++ lit " " ++ row_username e4 ++ lit ": " ++ row_text e4 ++ [LF] ++
       [8226%N] ++ lit " " ++ row_username e5 ++ lit ": " ++ row_text e5 ++ [LF] ++
       [8226%N] ++ lit " " ++ row_username e6 ++ lit ": " ++ row_text e6 ++ [LF] ++
       [8226%N] ++ lit " " ++ row_username e7 ++ lit ": " ++ row_text e7 ++ [LF] ++
       [LF]) ++
      concat ((λ k, section_of k (lines_of k (entries (fresh seven_fruits true))))
                <$> after).
Proof.
  assert (Hall : Forall (λ r, row_category r ∈ registry) seven_fruits).
  { apply (bool_decide_unpack _). vm_compute. exact I. }
  split; [reflexivity |]. split; [reflexivity |]. split; [exact Hall |].
  split; [reflexivity |].
  exact (report_shows_last_five_of_seven 1 boss fruits (fresh seven_fruits true)
           eq_refl eq_refl Hall eq_refl).
Defined.

(** C6 fails as stated: in [spoiled] seven rows carry [fruits], yet
    the administrator's [/view] raises and no report is sent, because
    the table also holds a row of a category outside the four. *)
Lemma seven_entries_but_no_report :
  length (filter (λ r, row_category r = fruits) spoiled) = 7%nat ∧
  (view_entries 1 boss (fresh spoiled true)).1 = Raised (KeyError meat) ∧
  outbox (view_entries 1 boss (fresh spoiled true)).2 = [] ∧
  ¬ (∃ body parse_mode,
       ReplyText 1 body parse_mode ∈
         outbox (view_entries 1 boss (fresh spoiled true)).2).
Proof.
  assert (Hout : outbox (view_entries 1 boss (fresh spoiled true)).2 = [])
    by (by vm_compute).
  split; [reflexivity |]. split; [by vm_compute |]. split; [exact Hout |].
  intros (body & pm & Hin). rewrite Hout in Hin. by apply elem_of_nil in Hin.
Qed.

(** The report over [seven_fruits], written out. *)
Example report_seven_fruits :
  report_of seven_fruits =
  overview_header ++
  lit "*Fruits* (7 entries):" ++ [LF] ++
  bullet (lit "Ann: plum") ++ [LF] ++
  bullet (lit "Bob: fig") ++ [LF] ++
  bullet (lit "Ann: kiwi") ++ [LF] ++
  bullet (lit "Bob: lime") ++ [LF] ++
  bullet (lit "Ann: date") ++ [LF; LF] ++
  lit "*Vegetables* (0 entries):" ++ [LF] ++ lit "_No entries yet_" ++ [LF; LF] ++
  lit "*Drinks* (1 entries):" ++ [LF] ++ bullet (lit "Bob: tea") ++ [LF; LF] ++
  lit "*Others* (0 entries):" ++ [LF] ++ lit "_No entries yet_" ++ [LF; LF].
Proof. by vm_compute. Qed.

Lemma report_lists_categories_unless_empty_witness :
  user_id boss = 1 ∧
  db_available (fresh seven_fruits true) = true ∧
  Forall (λ r, row_category r ∈ registry) (entries (fresh seven_fruits true)) ∧
  view_entries 1 boss (fresh seven_fruits true) =
    (Returned tt,
     sent (fresh seven_fruits true)
       [ReplyText 1 (report_of seven_fruits) Markdown]) ∧
  view_entries 1 boss (fresh [] true) =
    (Returned tt, sent (fresh [] true) [ReplyText 1 (lit "No entries yet.") None]).
Proof.
  assert (Hall : Forall (λ r, row_category r ∈ registry) seven_fruits).
  { apply (bool_decide_unpack _). vm_compute. exact I. }
  assert (Hne : seven_fruits ≠ []) by discriminate.
  split; [reflexivity |]. split; [reflexivity |]. split; [exact Hall |].
  split.
  - exact (proj1 (proj1 (proj2 (report_lists_categories_unless_empty 1 boss
             (fresh seven_fruits true) eq_refl eq_refl Hall)) Hne)).
  - exact (proj1 (report_lists_categories_unless_empty 1 boss
             (fresh [] true) eq_refl eq_refl (Forall_nil_2 _)) eq_refl).
Defined.

(** C7 fails as stated: over the empty table the administrator's reply
    is [No entries yet.], in which not every category of the registry
    appears (none does). *)
Lemma empty_store_report_lists_no_category :
  let r := view_entries 1 boss (fresh [] true) in
  outbox r.2 = [ReplyText 1 (lit "No entries yet.") None] ∧
  ¬ (∀ k, k ∈ registry →
       ∃ to body parse_mode,
         ReplyText to body parse_mode ∈ outbox r.2 ∧
         (contains body k || contains body (capitalize k)) = true) ∧
  Forall (λ k, contains (lit "No entries yet.") k = false ∧
               contains (lit "No entries yet.") (capitalize k) = false)
         registry.
Proof.
  split; [reflexivity |]. split.
  - intros Hall.
    destruct (Hall fruits (list_elem_of_here _ _)) as (to & body & pm & Hin & Hc).
    apply list_elem_of_singleton in Hin. injection Hin as _ -> _.
    by vm_compute in Hc.
  - repeat constructor.
Qed.

Lemma grouping_fails_only_on_unknown_category_witness :
  (∃ cats, group (as_tuple <$> seven_fruits) cats0 = Returned cats) ∧
  ((choose_category ann meat ;;
    handle_message 1 ann (lit "steak") ;;
    view_entries 1 (mkSender 1 (lit "Boss") 1)) (fresh [] true)).1 =
  Raised (KeyError meat).
Proof.
  split.
  - apply (proj1 (grouping_fails_only_on_unknown_category 1)).
    apply (bool_decide_unpack _). vm_compute. exact I.
  - exact (proj2 (proj2 (proj2 (grouping_fails_only_on_unknown_category 1))
                    ann (lit "Boss") (lit "steak") 1)).
Defined.

Lemma get_entries_reads_back_add_entry_witness :
  db_available (fresh seven_fruits true) = true ∧
  ∃ before w',
    get_entries (fresh seven_fruits true) =
      (Returned before, fresh seven_fruits true) ∧
    add_entry 7 (lit "Ann") fruits (lit "melon") (fresh seven_fruits true) =
      (Returned tt, w') ∧
    get_entries w' =
      (Returned (before ++ [(fruits, lit "Ann", lit "melon")]), w') ∧
    length (entries w') = S (length (entries (fresh seven_fruits true))).
Proof.
  split; [reflexivity |].
  exact (get_entries_reads_back_add_entry 7 (lit "Ann") fruits (lit "melon")
           (fresh seven_fruits true) eq_refl).
Defined.

Lemma get_category_entries_after_add_entry_witness :
  db_available (fresh seven_fruits true) = true ∧
  ∃ before w',
    get_category_entries (lit "drinks") (fresh seven_fruits true) =
      (Returned before, fresh seven_fruits true) ∧
    add_entry 7 (lit "Ann") fruits (lit "melon") (fresh seven_fruits true) =
      (Returned tt, w') ∧
    get_category_entries (lit "drinks") w' =
      (Returned (before ++
                 if decide (fruits = lit "drinks")
                 then [(lit "Ann", lit "melon")] else []), w').
Proof.
  split; [reflexivity |].
  exact (get_category_entries_after_add_entry 7 (lit "Ann") fruits (lit "melon")
           (lit "drinks") (fresh seven_fruits true) eq_refl).
Defined.


Lemma text_is_filed_under_latest_choice_witness :
  last_choice (user_id ann) busy_day (user_state (fresh [] true) !! user_id ann) =
    Some (lit "others") ∧
  let w1 := run 1 busy_day (fresh [] true) in
  let w2 := run 1 (busy_day ++ [(true, UText ann (lit "rice"))]) (fresh [] true) in
  entries w2 =
    entries w1 ++
    [mkRow (next_id (entries w1)) (user_id ann) (first_name ann) (lit "others")
           (strip (lit "rice"))] ∧
  user_state w2 = user_state w1.
Proof.
  split; [reflexivity |].
  exact (text_is_filed_under_latest_choice 1 busy_day (fresh [] true) ann
           (lit "others") (lit "rice") eq_refl).
Defined.

(** The table after [busy_day]: the text sent during the outage is
    lost, the other one is stored stripped. *)
Example busy_day_table :
  entries (run 1 busy_day (fresh [] true)) =
  [mkRow 1 8 (lit "Bob") (lit "drinks") (lit "tea")].
Proof. by vm_compute. Qed.

Lemma keyboard_tokens_keep_report_working_witness :
  within_registry (fresh [] true) ∧
  buttons_only busy_day ∧
  user_id boss = 1 ∧
  let w' := with_db true (run 1 busy_day (fresh [] true)) in
  within_registry (run 1 busy_day (fresh [] true)) ∧
  ∃ body parse_mode,
    view_entries 1 boss w' =
    (Returned tt, sent w' [ReplyText (chat_id boss) body parse_mode]).
Proof.
  assert (Hw : within_registry (fresh [] true)).
  { split; [| constructor]. intros uid c Hsel.
    unfold fresh in Hsel. cbn [user_state] in Hsel.
    by rewrite lookup_empty in Hsel. }
  assert (Hevs : buttons_only busy_day).
  { unfold buttons_only, busy_day.
    repeat (apply Forall_cons; split;
            [cbn [snd]; try exact I; rewrite registry_keyboard;
             apply (bool_decide_unpack _); vm_compute; exact I |]).
    apply Forall_nil_2. }
  split; [exact Hw |]. split; [exact Hevs |]. split; [reflexivity |].
  exact (keyboard_tokens_keep_report_working 1 busy_day (fresh [] true) boss
           Hw Hevs eq_refl).
Defined.

Lemma unknown_category_disables_report_witness :
  mkRow 1 7 (lit "Ann") meat (lit "steak") ∈
    entries (fresh [mkRow 1 7 (lit "Ann") meat (lit "steak")] true) ∧
  (row_category (mkRow 1 7 (lit "Ann") meat (lit "steak")) ∉ registry) ∧
  user_id boss = 1 ∧
  let w' := with_db true
              (run 1 busy_day
                 (fresh [mkRow 1 7 (lit "Ann") meat (lit "steak")] true)) in
  ∃ e, view_entries 1 boss w' = (Raised e, w').
Proof.
  split; [apply list_elem_of_here |]. split; [exact meat_unknown |].
  split; [reflexivity |].
  exact (unknown_category_disables_report 1 busy_day
           (fresh [mkRow 1 7 (lit "Ann") meat (lit "steak")] true)
           (mkRow 1 7 (lit "Ann") meat (lit "steak")) boss true
           (list_elem_of_here _ _) meat_unknown eq_refl).
Defined.

Lemma view_raises_for_first_unknown_category_witness :
  user_id boss = 1 ∧
  db_available (fresh spoiled true) = true ∧
  Forall (λ k, row_category k ∈ registry) seven_fruits ∧
  (meat ∉ registry) ∧
  view_entries 1 boss (fresh spoiled true) =
  (Raised (KeyError meat), fresh spoiled true).
Proof.
  assert (Hall : Forall (λ r, row_category r ∈ registry) seven_fruits).
  { apply (bool_decide_unpack _). vm_compute. exact I. }
  split; [reflexivity |]. split; [reflexivity |]. split; [exact Hall |].
  split; [exact meat_unknown |].
  exact (view_raises_for_first_unknown_category 1 boss (fresh spoiled true)
           seven_fruits
           [mkRow 10 7 (lit "Ann") (lit "fish") (lit "cod")]
           (mkRow 9 7 (lit "Ann") meat (lit "steak"))
           eq_refl eq_refl eq_refl Hall meat_unknown).
Defined.

Lemma run_keeps_ids_increasing_witness :
  ids_increasing (entries (fresh [] true)) ∧
  ids_increasing
    (entries (run 1 (busy_day ++ [(true, UText ann (lit "rice"))])
                (fresh [] true))) ∧
  NoDup (row_id <$>
         entries (run 1 (busy_day ++ [(true, UText ann (lit "rice"))])
                    (fresh [] true))).
Proof.
  assert (Hnil : ids_increasing (entries (fresh [] true))).
  { intros i j ri rj Hi. unfold fresh in Hi. cbn [entries] in Hi.
    by rewrite lookup_nil in Hi. }
  split; [exact Hnil |].
  exact (run_keeps_ids_increasing 1
           (busy_day ++ [(true, UText ann (lit "rice"))]) (fresh [] true) Hnil).
Defined.

Lemma run_keeps_texts_stripped_witness :
  Forall (λ r, strip (row_text r) = row_text r) (entries (fresh [] true)) ∧
  Forall (λ r, strip (row_text r) = row_text r)
         (entries (run 1 busy_day (fresh [] true))).
Proof.
  split; [constructor |].
  exact (proj1 (run_keeps_texts_stripped 1 busy_day (fresh [] true)
                  (Forall_nil_2 _))).
Defined.

Lemma section_counts_add_up_witness :
  user_id boss = 1 ∧
  db_available (fresh seven_fruits true) = true ∧
  entries (fresh seven_fruits true) ≠ [] ∧
  (view_entries 1 boss (fresh seven_fruits true)).1 = Returned tt ∧
  ∃ cats,
    group (as_tuple <$> entries (fresh seven_fruits true)) cats0 = Returned cats ∧
    view_entries 1 boss (fresh seven_fruits true) =
      (Returned tt,
       sent (fresh seven_fruits true)
         [ReplyText (chat_id boss) (render cats) Markdown]) ∧
    cats.*1 = registry ∧
    sum_list (length <$> cats.*2) = length (entries (fresh seven_fruits true)).
Proof.
  assert (Hne : entries (fresh seven_fruits true) ≠ []) by discriminate.
  assert (Hret : (view_entries 1 boss (fresh seven_fruits true)).1 = Returned tt)
    by (by vm_compute).
  split; [reflexivity |]. split; [reflexivity |]. split; [exact Hne |].
  split; [exact Hret |].
  exact (section_counts_add_up 1 boss (fresh seven_fruits true)
           eq_refl eq_refl Hne Hret).
Defined.

Lemma accepted_text_shows_in_next_report_witness :
  within_registry (chosen true) ∧
  user_state (chosen true) !! user_id ann = Some fruits ∧
  db_available (chosen true) = true ∧
  user_id boss = 1 ∧
  let w1 := (handle_message 1 ann (lit " fig ") (chosen true)).2 in
  ∃ body,
    view_entries 1 boss w1 =
      (Returned tt, sent w1 [ReplyText (chat_id boss) body Markdown]) ∧
    contains body
      ([8226%N] ++ lit " " ++ first_name ann ++ lit ": " ++
       strip (lit " fig ") ++ [LF]) = true.
Proof.
  assert (Hw : within_registry (chosen true)).
  { split; [| constructor]. intros uid c Hsel.
    unfold chosen in Hsel. cbn [user_state] in Hsel.
    apply lookup_singleton_Some in Hsel as [_ <-]. apply list_elem_of_here. }
  split; [exact Hw |]. split; [reflexivity |]. split; [reflexivity |].
  split; [reflexivity |].
  exact (accepted_text_shows_in_next_report 1 ann boss fruits (lit " fig ")
           (chosen true) Hw eq_refl eq_refl eq_refl).
Defined.

(** In the group chat [-200] the refusal of [/view] goes to the group,
    and so does the confirmation of a stored text, while the
    notification goes to the administrator. *)
Example group_chat_replies :
  outbox (run 1 [(true, UView bob); (true, UCallback bob fruits);
                 (true, UText bob (lit "fig"))] (fresh [] true)) =
  [ ReplyText (-200) not_authorized None;
    Answer 8;
    EditMessageText (-200)
      (lit "You chose *Fruits*." ++ [LF] ++ lit "Now send me your entry.")
      Markdown;
    ReplyText (-200) ([9989%N] ++ lit " Added to *Fruits*!") Markdown;
    SendMessage 1
      ([128236%N] ++ lit " *New entry in Fruits*" ++ [LF; LF] ++
       lit "fig" ++ [LF; LF] ++ lit "From: Bob") Markdown ].
Proof. by vm_compute. Qed.

(** Every message of the bot once, written out: [/start] and a text
    without selection from Ann, her choice and her text, a [/view] from
    her and two from the administrator, the second with the database
    unreachable. *)
Example transcript :
  outbox (run 1 [ (true, UStart ann);
                  (true, UText ann (lit "fig"));
                  (true, UCallback ann (lit "drinks"));
                  (true, UText ann (lit " tea "));
                  (true, UView ann);
                  (true, UView boss);
                  (false, UView boss) ] (fresh [] true)) =
  [ ReplyKeyboard 7 (lit "Please choose a category:")
      [ [mkButton ([127822%N] ++ lit " Fruits") (lit "fruits")];
        [mkButton ([129365%N] ++ lit " Vegetables") (lit "vegetables")];
        [mkButton ([129380%N] ++ lit " Drinks") (lit "drinks")];
        [mkButton ([128230%N] ++ lit " Others") (lit "others")] ];
    ReplyText 7 (lit "Please choose a category first using /start.") None;
    Answer 7;
    EditMessageText 7
      (lit "You chose *Drinks*." ++ [LF] ++ lit "Now send me your entry.")
      (Some (lit "Markdown"));
    ReplyText 7 ([9989%N] ++ lit " Added to *Drinks*!") (Some (lit "Markdown"));
    SendMessage 1
      ([128236%N] ++ lit " *New entry in Drinks*" ++ [LF; LF] ++
       lit "tea" ++ [LF; LF] ++ lit "From: Ann") (Some (lit "Markdown"));
    ReplyText 7
      ([128683%N] ++ lit " You are not authorized to use this command.") None;
    ReplyText 1
      ([128202%N] ++ lit " *Category Entries Overview:*" ++ [LF; LF] ++
       lit "*Fruits* (0 entries):" ++ [LF] ++ lit "_No entries yet_" ++ [LF; LF] ++
       lit "*Vegetables* (0 entries):" ++ [LF] ++ lit "_No entries yet_" ++
       [LF; LF] ++
       lit "*Drinks* (1 entries):" ++ [LF] ++
       [8226%N] ++ lit " Ann: tea" ++ [LF; LF] ++
       lit "*Others* (0 entries):" ++ [LF] ++ lit "_No entries yet_" ++ [LF; LF])
      (Some (lit "Markdown")) ].
Proof. by vm_compute. Qed.
